(** * cereal messaging: SubMaster, PubMaster and the drain/receive helpers

    A shallow embedding of [messaging/__init__.py].  Python floats are
    IEEE binary64 values, embedded as Rocq's primitive floats; Python
    dicts are insertion-ordered association lists; methods that mutate
    [self] and may raise are computations in a state-and-exception monad
    that keeps the (partially updated) object when an exception escapes. *)

From Stdlib Require Import ZArith Floats Lia.
From stdpp Require Import base tactics option list sets strings.

Set Warnings "-inexact-float".
Set Default Proof Using "Type".

Open Scope Z_scope.

(** ** Python values *)

(** Exceptions the embedded code can raise. *)
Inductive exn : Type :=
| KeyError (key : string)
| KjException
| ZeroDivisionError
| OverflowError
| ValueError.

Inductive result (A : Type) : Type :=
| Ok (a : A)
| Raise (e : exn).
Arguments Ok {A} a.
Arguments Raise {A} e.

(** Exception-only computations (methods that read [self]). *)
Definition rbind {A B} (r : result A) (k : A -> result B) : result B :=
  match r with
  | Ok a => k a
  | Raise e => Raise e
  end.

(** State-and-exception computations (methods that mutate [self]). *)
Definition M (S A : Type) : Type := S -> result A * S.

Definition ret {S A} (a : A) : M S A := fun st => (Ok a, st).
Definition bind {S A B} (m : M S A) (k : A -> M S B) : M S B :=
  fun st =>
    match m st with
    | (Ok a, st') => k a st'
    | (Raise e, st') => (Raise e, st')
    end.
Definition get {S} : M S S := fun st => (Ok st, st).
Definition modify {S} (f : S -> S) : M S unit := fun st => (Ok tt, f st).
Definition lift {S A} (r : result A) : M S A := fun st => (r, st).
Definition reads {S A} (f : S -> result A) : M S A := fun st => (f st, st).

(** [m] leaves the observation [g] of the state alone, whether or not
    it raises. *)
Definition keeps {S A X} (g : S -> X) (m : M S A) : Prop :=
  forall st, g (snd (m st)) = g st.

(** [m] keeps the invariant [I] of the state, whether or not it raises. *)
Definition preserves {S A} (I : S -> Prop) (m : M S A) : Prop :=
  forall st, I st -> I (snd (m st)).

Declare Scope py_scope.
Delimit Scope py_scope with py.
Notation "'let!' x ':=' m 'in' k" := (bind m (fun x => k))
  (at level 10, x name, m at level 100, k at level 200) : py_scope.
Notation "m ';;;' k" := (bind m (fun _ => k))
  (at level 100, k at level 200, right associativity) : py_scope.
Notation "'try!' x ':=' r 'in' k" := (rbind r (fun x => k))
  (at level 10, x name, r at level 100, k at level 200) : py_scope.

(** [for x in l: body(x)] *)
Fixpoint for_each {S A} (l : list A) (body : A -> M S unit) : M S unit :=
  match l with
  | [] => ret tt
  | x :: l' => bind (body x) (fun _ => for_each l' body)
  end.

(** [x in l] on a list of strings. *)
Definition py_in (s : string) (l : list string) : bool := bool_decide (s ∈ l).

(** *** Dictionaries

    A Python [dict] keeps its keys in insertion order; assigning to an
    existing key keeps its place. *)
Definition dict (V : Type) : Type := list (string * V).

Fixpoint dict_get {V} (d : dict V) (k : string) : option V :=
  match d with
  | [] => None
  | (k', v) :: d' => if decide (k' = k) then Some v else dict_get d' k
  end.

(** [d[k] = v] *)
Fixpoint dict_set {V} (k : string) (v : V) (d : dict V) : dict V :=
  match d with
  | [] => [(k, v)]
  | (k', v') :: d' =>
      if decide (k' = k) then (k, v) :: d' else (k', v') :: dict_set k v d'
  end.

Definition dict_keys {V} (d : dict V) : list string := map fst d.

(** [{s: f(s) for s in ks}] *)
Definition dict_comp {V} (ks : list string) (f : string -> V) : dict V :=
  fold_left (fun d s => dict_set s (f s) d) ks [].

(** [dict.fromkeys(d, v)] *)
Definition dict_fromkeys {V W} (d : dict V) (w : W) : dict W :=
  map (fun kv => (fst kv, w)) d.

(** [d[k]], raising [KeyError] on a missing key. *)
Definition getitem {V} (d : dict V) (k : string) : result V :=
  match dict_get d k with
  | Some v => Ok v
  | None => Raise (KeyError k)
  end.

(** *** Floats *)

(** [float(z)] for a Python int: rounding to nearest, ties to even.  An
    int beyond the range of the floats gives an infinity here, where
    Python raises [OverflowError]; the only use that can meet one,
    [int(timeout * (1. / dt))], raises [OverflowError] on it as well. *)
Definition float_of_Z (z : Z) : float :=
  SF2Prim (binary_normalize prec emax z 0 false).

(** [a / b] on floats raises on a zero divisor. *)
Definition py_div (a b : float) : result float :=
  if (b =? 0)%float then Raise ZeroDivisionError else Ok (a / b)%float.

(** [sum(l)]: the running total starts at the int [0] and the items are
    added from the left, each addition rounded (the plain summation of
    CPython before 3.12). *)
Definition py_sum (l : list float) : float :=
  fold_left PrimFloat.add l 0%float.

(** [int(x)] on a float truncates toward zero; infinities and NaN raise. *)
Definition py_int (x : float) : result Z :=
  match Prim2SF x with
  | S754_zero _ => Ok 0
  | S754_finite s m e =>
      let a := match e with
               | Z0 => Zpos m
               | Zpos p => Zpos m * 2 ^ Zpos p
               | Zneg p => Zpos m / 2 ^ Zpos p
               end in
      Ok (if s then - a else a)
  | S754_infinity _ => Raise OverflowError
  | S754_nan => Raise ValueError
  end.

(** *** Bounded deques *)

(** [collections.deque(maxlen=n).append(x)]: the item goes to the right
    end, and when that makes the deque longer than [maxlen] the leftmost
    item is dropped. *)
Definition deque_append (maxlen : nat) (d : list float) (x : float) : list float :=
  let d' := d ++ [x] in
  if (maxlen <? length d')%nat then tail d' else d'.

(** ** Constants *)

Definition AVG_FREQ_HISTORY : nat := 100.

(** ** Message envelopes (the capnp collaborator) *)

(** The payload slot of a [log.Event]: a struct, or a list (text, data)
    of a given size. *)
Inductive Payload : Type :=
| PStruct (name : string)
| PList (name : string) (size : nat).

(** The kind of the union member a topic names in the [log.Event] schema. *)
Inductive FieldType : Type := StructField | ListField.

Module Event.
  (** An envelope: the validity flag, the producer's timestamp, and the
      active union member ([which()]) with its payload. *)
Record t : Type := mk {
  valid : bool;
  logMonoTime : Z;
  which : string;
  payload : Payload;
}.
End Event.

(** [dat.init(field)] and [dat.init(field, size)] of the capnp builder,
    as the [try]/[except KjException] in [SubMaster.__init__] relies on
    it: a struct member is initialised without a size, a list member
    needs one, and anything else is refused with [KjException]. *)
Definition capnp_init (schema : dict FieldType) (dat : Event.t)
    (field : string) (size : option nat) : result Event.t :=
  match dict_get schema field, size with
  | Some StructField, None =>
      Ok (Event.mk (Event.valid dat) (Event.logMonoTime dat)
            field (PStruct field))
  | Some ListField, Some n =>
      Ok (Event.mk (Event.valid dat) (Event.logMonoTime dat)
            field (PList field n))
  | _, _ => Raise KjException
  end.

(** [getattr(msg, s)]: reading a union member other than the active one
    is refused. *)
Definition capnp_getattr (msg : Event.t) (s : string) : result Payload :=
  if decide (Event.which msg = s) then Ok (Event.payload msg)
  else Raise KjException.

(** The keyword arguments [new_message] forwards to the envelope. *)
Record kwargs : Type := {
  kw_valid : option bool;
  kw_logMonoTime : option Z;
}.
Definition no_kwargs : kwargs := {| kw_valid := None; kw_logMonoTime := None |}.

Section NewMessage.
  (** The [log.Event] schema and the reading of [time.monotonic()]. *)
Context (schema : dict FieldType) (monotonic : float).

Definition new_message (service : option string) (size : option nat)
    (kw : kwargs) : result Event.t :=
  (try! now_ns := py_int (monotonic * 1e9)%float in
   let args_valid := default false (kw_valid kw) in
   let args_logMonoTime := default now_ns (kw_logMonoTime kw) in
   let dat := Event.mk args_valid args_logMonoTime
                "initData" (PStruct "initData") in
   match service with
   | Some service =>
       match size with
       | None => capnp_init schema dat service None
       | Some size => capnp_init schema dat service (Some size)
       end
   | None => Ok dat
   end)%py.
End NewMessage.

(** ** The topic registry (the [cereal.services] collaborator) *)

(** Modelled from the spec: the entries of [SERVICE_LIST], which maps a
    topic name to its expected publish frequency in Hz. *)
Record Service : Type := { frequency : float }.

(** ** SubMaster *)

Module SubMaster.

Record t : Type := mk {
  frame : Z;
  updated : dict bool;
  recv_time : dict float;
  recv_frame : dict Z;
  alive : dict bool;
  freq_ok : dict bool;
  recv_dts : dict (list float);
  data : dict Payload;
  valid : dict bool;
  logMonoTime : dict Z;
  non_polled_services : list string;
  ignore_average_freq : list string;
  ignore_alive : list string;
  ignore_valid : list string;
}.

(** Assignments to the attributes that change after construction. *)
Definition set_frame (v : Z) (self : t) : t :=
  mk v (updated self) (recv_time self) (recv_frame self) (alive self)
     (freq_ok self) (recv_dts self) (data self) (valid self)
     (logMonoTime self) (non_polled_services self)
     (ignore_average_freq self) (ignore_alive self) (ignore_valid self).
Definition set_updated (v : dict bool) (self : t) : t :=
  mk (frame self) v (recv_time self) (recv_frame self) (alive self)
     (freq_ok self) (recv_dts self) (data self) (valid self)
     (logMonoTime self) (non_polled_services self)
     (ignore_average_freq self) (ignore_alive self) (ignore_valid self).
Definition set_recv_time (v : dict float) (self : t) : t :=
  mk (frame self) (updated self) v (recv_frame self) (alive self)
     (freq_ok self) (recv_dts self) (data self) (valid self)
     (logMonoTime self) (non_polled_services self)
     (ignore_average_freq self) (ignore_alive self) (ignore_valid self).
Definition set_recv_frame (v : dict Z) (self : t) : t :=
  mk (frame self) (updated self) (recv_time self) v (alive self)
     (freq_ok self) (recv_dts self) (data self) (valid self)
     (logMonoTime self) (non_polled_services self)
     (ignore_average_freq self) (ignore_alive self) (ignore_valid self).
Definition set_alive (v : dict bool) (self : t) : t :=
  mk (frame self) (updated self) (recv_time self) (recv_frame self) v
     (freq_ok self) (recv_dts self) (data self) (valid self)
     (logMonoTime self) (non_polled_services self)
     (ignore_average_freq self) (ignore_alive self) (ignore_valid self).
Definition set_freq_ok (v : dict bool) (self : t) : t :=
  mk (frame self) (updated self) (recv_time self) (recv_frame self)
     (alive self) v (recv_dts self) (data self) (valid self)
     (logMonoTime self) (non_polled_services self)
     (ignore_average_freq self) (ignore_alive self) (ignore_valid self).
Definition set_recv_dts (v : dict (list float)) (self : t) : t :=
  mk (frame self) (updated self) (recv_time self) (recv_frame self)
     (alive self) (freq_ok self) v (data self) (valid self)
     (logMonoTime self) (non_polled_services self)
     (ignore_average_freq self) (ignore_alive self) (ignore_valid self).
Definition set_data (v : dict Payload) (self : t) : t :=
  mk (frame self) (updated self) (recv_time self) (recv_frame self)
     (alive self) (freq_ok self) (recv_dts self) v (valid self)
     (logMonoTime self) (non_polled_services self)
     (ignore_average_freq self) (ignore_alive self) (ignore_valid self).
Definition set_valid (v : dict bool) (self : t) : t :=
  mk (frame self) (updated self) (recv_time self) (recv_frame self)
     (alive self) (freq_ok self) (recv_dts self) (data self) v
     (logMonoTime self) (non_polled_services self)
     (ignore_average_freq self) (ignore_alive self) (ignore_valid self).
Definition set_logMonoTime (v : dict Z) (self : t) : t :=
  mk (frame self) (updated self) (recv_time self) (recv_frame self)
     (alive self) (freq_ok self) (recv_dts self) (data self) (valid self)
     v (non_polled_services self)
     (ignore_average_freq self) (ignore_alive self) (ignore_valid self).

Section Methods.
Context (SERVICE_LIST : dict Service) (schema : dict FieldType).

Local Open Scope py_scope.

(** The body of the [for s in services] loop of the constructor;
    the sockets belong to the transport and are left out. *)
Definition init_service (monotonic : float) (s : string) : M t unit :=
  let! data_ :=
    lift (match new_message schema monotonic (Some s) None no_kwargs with
          | Ok d => Ok d
          | Raise KjException =>
              new_message schema monotonic (Some s) (Some 0%nat) no_kwargs
          | Raise e => Raise e
          end) in
  let! p := lift (capnp_getattr data_ s) in
  modify (fun self => set_data (dict_set s p (data self)) self) ;;;
  modify (fun self => set_logMonoTime (dict_set s 0 (logMonoTime self)) self) ;;;
  modify (fun self => set_valid (dict_set s true (valid self)) self).

(** [SubMaster(services, poll, ignore_alive, ignore_avg_freq,
    ignore_valid)]; [simulation] is the value of
    [bool(int(os.getenv("SIMULATION", "0")))] and [monotonic] the
    clock reading the placeholder messages are stamped with. *)
Definition __init__ (simulation : bool) (monotonic : float)
    (services : list string)
    (poll ignore_alive_ ignore_avg_freq ignore_valid_ : option (list string))
    : result t :=
  let self0 :=
    {| frame := -1;
       updated := dict_comp services (fun _ => false);
       recv_time := dict_comp services (fun _ => 0%float);
       recv_frame := dict_comp services (fun _ => 0);
       alive := dict_comp services (fun _ => false);
       freq_ok := dict_comp services (fun _ => false);
       recv_dts := dict_comp services (fun _ => []);
       data := [];
       valid := [];
       logMonoTime := [];
       non_polled_services :=
         filter (fun s => match poll with
                          | Some poll =>
                              negb (length poll =? 0)%nat && negb (py_in s poll)
                          | None => false
                          end = true) services;
       ignore_average_freq :=
         if simulation then services else default [] ignore_avg_freq;
       ignore_alive :=
         if simulation then services else default [] ignore_alive_;
       ignore_valid := default [] ignore_valid_ |} in
  match for_each services (init_service monotonic) self0 with
  | (Ok _, self) => Ok self
  | (Raise e, _) => Raise e
  end.

Definition _check_avg_freq (self : t) (s : string) : result bool :=
  try! rt := getitem (recv_time self) s in
  if negb (1e-5 <? rt)%float then Ok false else
  try! svc := getitem SERVICE_LIST s in
  if negb (1e-5 <? frequency svc)%float then Ok false else
  Ok (negb (py_in s (non_polled_services self))
      && negb (py_in s (ignore_average_freq self))
      && negb (py_in s (ignore_alive self))).

(** The body of [for msg in msgs]. *)
Definition update_msg (cur_time : float) (msg : option Event.t)
    : M t unit :=
  match msg with
  | None => ret tt
  | Some msg =>
      let s := Event.which msg in
      modify (fun self => set_updated (dict_set s true (updated self)) self) ;;;
      let! dts := reads (fun self => getitem (recv_dts self) s) in
      let! rt := reads (fun self => getitem (recv_time self) s) in
      modify (fun self =>
        set_recv_dts
          (dict_set s (deque_append AVG_FREQ_HISTORY dts (cur_time - rt)%float)
             (recv_dts self)) self) ;;;
      modify (fun self => set_recv_time (dict_set s cur_time (recv_time self)) self) ;;;
      modify (fun self => set_recv_frame (dict_set s (frame self) (recv_frame self)) self) ;;;
      let! p := lift (capnp_getattr msg s) in
      modify (fun self => set_data (dict_set s p (data self)) self) ;;;
      modify (fun self =>
        set_logMonoTime (dict_set s (Event.logMonoTime msg) (logMonoTime self)) self) ;;;
      modify (fun self => set_valid (dict_set s (Event.valid msg) (valid self)) self)
  end.

(** The body of [for s in self.data]. *)
Definition update_service (cur_time : float) (s : string) : M t unit :=
  let! svc := lift (getitem SERVICE_LIST s) in
  if (1e-5 <? frequency svc)%float then
    let! rt := reads (fun self => getitem (recv_time self) s) in
    let! svc := lift (getitem SERVICE_LIST s) in
    let! limit := lift (py_div 10.0 (frequency svc)) in
    modify (fun self =>
      set_alive (dict_set s ((cur_time - rt) <? limit)%float (alive self)) self) ;;;
    let! chk := reads (fun self => _check_avg_freq self s) in
    if chk then
      let! dts := reads (fun self => getitem (recv_dts self) s) in
      if (0 <? length dts)%nat then
        let! dts1 := reads (fun self => getitem (recv_dts self) s) in
        let! dts2 := reads (fun self => getitem (recv_dts self) s) in
        let! avg_dt :=
          lift (py_div (py_sum dts1) (float_of_Z (Z.of_nat (length dts2)))) in
        let! svc := lift (getitem SERVICE_LIST s) in
        let! expected_dt := lift (py_div 1 (frequency svc * 0.90)%float) in
        modify (fun self =>
          set_freq_ok (dict_set s (avg_dt <? expected_dt)%float (freq_ok self)) self)
      else
        modify (fun self => set_freq_ok (dict_set s false (freq_ok self)) self)
    else
      modify (fun self => set_freq_ok (dict_set s true (freq_ok self)) self)
  else
    modify (fun self => set_freq_ok (dict_set s true (freq_ok self)) self) ;;;
    modify (fun self => set_alive (dict_set s true (alive self)) self).

Definition update_msgs (cur_time : float) (msgs : list (option Event.t))
    : M t unit :=
  modify (fun self => set_frame (frame self + 1) self) ;;;
  modify (fun self => set_updated (dict_fromkeys (updated self) false) self) ;;;
  for_each msgs (update_msg cur_time) ;;;
  let! self := get in
  for_each (dict_keys (data self)) (update_service cur_time).

(** [update]: the messages the poller's ready sockets and then the
    non-polled sockets yield, and the clock reading, come from the
    transport and the system. *)
Definition update (monotonic : float)
    (polled non_polled : list (option Event.t)) : M t unit :=
  let msgs := polled ++ non_polled in
  update_msgs monotonic msgs.

(** [all(d[s] for s in l if keep(s))], stopping at the first false. *)
Fixpoint py_all (keep : string -> result bool) (d : dict bool)
    (l : list string) : result bool :=
  match l with
  | [] => Ok true
  | s :: l' =>
      try! k := keep s in
      if k then
        try! b := getitem d s in
        if b then py_all keep d l' else Ok false
      else py_all keep d l'
  end.

Definition all_alive (self : t) (service_list : option (list string))
    : result bool :=
  let service_list := default (dict_keys (alive self)) service_list in
  py_all (fun s => Ok (negb (py_in s (ignore_alive self))))
    (alive self) service_list.

Definition all_freq_ok (self : t) (service_list : option (list string))
    : result bool :=
  let service_list := default (dict_keys (alive self)) service_list in
  py_all (fun s => _check_avg_freq self s) (freq_ok self) service_list.

Definition all_valid (self : t) (service_list : option (list string))
    : result bool :=
  let service_list := default (dict_keys (alive self)) service_list in
  py_all (fun s => Ok (negb (py_in s (ignore_valid self))))
    (valid self) service_list.

Definition all_checks (self : t) (service_list : option (list string))
    : result bool :=
  try! a := all_alive self service_list in
  if negb a then Ok false else
  try! f := all_freq_ok self service_list in
  if negb f then Ok false else
  all_valid self service_list.
End Methods.
End SubMaster.

(** A run of the aggregator: the owner calls [update_msgs] once per tick
    with the clock reading and the messages of that tick, and goes on
    with the same object whether or not a call raised. *)
Definition run_updates (SERVICE_LIST : dict Service)
    (ticks : list (float * list (option Event.t))) (self : SubMaster.t)
    : SubMaster.t :=
  fold_left
    (fun self tick => snd (SubMaster.update_msgs SERVICE_LIST tick.1 tick.2 self))
    ticks self.

(** ** PubMaster *)

Module PubMaster.

  (** One outbound socket per topic; a socket is named by its endpoint. *)
Record t : Type := mk { sock : dict string }.

Definition __init__ (services : list string) : t :=
  mk (fold_left (fun d s => dict_set s s d) services []).

Section Methods.
  (** The transport and the system the publisher runs in: the state of
      the world, the per-socket predicate of the transport, and
      [time.sleep(dt)], which changes the world or raises (it raises
      [ValueError] on a negative length). *)
Context {World : Type}
        (all_readers_updated : string -> World -> bool)
        (sleep : float -> M World unit).

Local Open Scope py_scope.

(** [for _ in range(n)] of [wait_for_readers_to_update]; falling out
    of the loop returns [False]. *)
Fixpoint wait_loop (self : t) (s : string) (dt : float) (n : nat)
    : M World bool :=
  match n with
  | O => ret false
  | S n' =>
      let! sk := lift (getitem (sock self) s) in
      let! w := get in
      if all_readers_updated sk w then ret true
      else sleep dt ;;; wait_loop self s dt n'
  end.

Definition wait_for_readers_to_update (self : t) (s : string)
    (timeout : Z) (dt : float) : M World bool :=
  let! inv := lift (py_div 1 dt) in
  let! n := lift (py_int (float_of_Z timeout * inv)%float) in
  wait_loop self s dt (Z.to_nat n).
End Methods.
End PubMaster.

(** ** Draining a socket *)

Definition bytes : Type := list Byte.byte.

Section Drain.
  (** The subscriber socket of the transport: [receive non_blocking sock]
      yields a message or the absent value, and the socket afterwards.
      [log_from_bytes] is the capnp decoder. *)
Context {SubSocket : Type}
        (receive : bool -> SubSocket -> option bytes * SubSocket)
        (log_from_bytes : bytes -> result Event.t).

(** [while 1] of [drain_sock_raw], with [fuel] bounding the number of
    iterations; [None] when the fuel runs out. *)
Fixpoint drain_sock_raw_loop (fuel : nat) (wait_for_one : bool)
    (ret : list bytes) (sock : SubSocket) : option (list bytes * SubSocket) :=
  match fuel with
  | O => None
  | S fuel' =>
      let '(dat, sock') :=
        if wait_for_one && (length ret =? 0)%nat then receive false sock
        else receive true sock in
      match dat with
      | None => Some (ret, sock')
      | Some dat => drain_sock_raw_loop fuel' wait_for_one (ret ++ [dat]) sock'
      end
  end.

Definition drain_sock_raw (fuel : nat) (sock : SubSocket) (wait_for_one : bool)
    : option (list bytes * SubSocket) :=
  drain_sock_raw_loop fuel wait_for_one [] sock.

Fixpoint drain_sock_loop (fuel : nat) (wait_for_one : bool)
    (ret : list Event.t) (sock : SubSocket)
    : option (result (list Event.t) * SubSocket) :=
  match fuel with
  | O => None
  | S fuel' =>
      let '(dat, sock') :=
        if wait_for_one && (length ret =? 0)%nat then receive false sock
        else receive true sock in
      match dat with
      | None => Some (Ok ret, sock')
      | Some dat =>
          match log_from_bytes dat with
          | Ok dat => drain_sock_loop fuel' wait_for_one (ret ++ [dat]) sock'
          | Raise e => Some (Raise e, sock')
          end
      end
  end.

Definition drain_sock (fuel : nat) (sock : SubSocket) (wait_for_one : bool)
    : option (result (list Event.t) * SubSocket) :=
  drain_sock_loop fuel wait_for_one [] sock.
End Drain.

(** ** The other receive helpers *)

Section Receive.
(** The subscriber socket and the decoder, as for the drain helpers. *)
Context {SubSocket : Type}
        (receive : bool -> SubSocket -> option bytes * SubSocket)
        (log_from_bytes : bytes -> result Event.t).

(** [log_from_bytes] on a message that may be absent. *)
Definition decode_if_any (dat : option bytes) : result (option Event.t) :=
  match dat with
  | None => Ok None
  | Some dat =>
      match log_from_bytes dat with
      | Ok msg => Ok (Some msg)
      | Raise e => Raise e
      end
  end.

(** [while 1] of [recv_sock], with [fuel] bounding the number of
    iterations; [None] when the fuel runs out. *)
Fixpoint recv_sock_loop (fuel : nat) (wait : bool) (dat : option bytes)
    (sock : SubSocket) : option (option bytes * SubSocket) :=
  match fuel with
  | O => None
  | S fuel' =>
      let '(recv, sock') :=
        if wait && (match dat with None => true | Some _ => false end)
        then receive false sock
        else receive true sock in
      match recv with
      | None => Some (dat, sock')
      | Some recv => recv_sock_loop fuel' wait (Some recv) sock'
      end
  end.

Definition recv_sock (fuel : nat) (sock : SubSocket) (wait : bool)
    : option (result (option Event.t) * SubSocket) :=
  match recv_sock_loop fuel wait None sock with
  | None => None
  | Some (dat, sock') => Some (decode_if_any dat, sock')
  end.

Definition recv_one (sock : SubSocket)
    : result (option Event.t) * SubSocket :=
  let '(dat, sock') := receive false sock in
  (decode_if_any dat, sock').

Definition recv_one_or_none (sock : SubSocket)
    : result (option Event.t) * SubSocket :=
  let '(dat, sock') := receive true sock in
  (decode_if_any dat, sock').

(** [while True] of [recv_one_retry], with [fuel] bounding the number of
    blocking receives. *)
Fixpoint recv_one_retry (fuel : nat) (sock : SubSocket)
    : option (result Event.t * SubSocket) :=
  match fuel with
  | O => None
  | S fuel' =>
      let '(dat, sock') := receive false sock in
      match dat with
      | Some dat => Some (log_from_bytes dat, sock')
      | None => recv_one_retry fuel' sock'
      end
  end.
End Receive.

(** ** SubMaster and PubMaster: the remaining methods *)

Module SubMasterAccess.
(** [sm[s]] *)
Definition __getitem__ (self : SubMaster.t) (s : string) : result Payload :=
  getitem (SubMaster.data self) s.
End SubMasterAccess.

Module PubMasterSend.
Section Methods.
(** The transport: what sending on a socket does to the world, and its
    per-socket predicate; [to_bytes] is the capnp serialiser. *)
Context {World : Type}
        (sock_send : string -> bytes -> World -> World)
        (all_readers_updated_ : string -> World -> bool)
        (to_bytes : Event.t -> bytes).

Local Open Scope py_scope.

(** [send(s, dat)]: [dat] is bytes, or a builder that is serialised
    first. *)
Definition send (self : PubMaster.t) (s : string) (dat : bytes + Event.t)
    : M World unit :=
  let dat := match dat with
             | inl dat => dat
             | inr dat => to_bytes dat
             end in
  let! sk := lift (getitem (PubMaster.sock self) s) in
  modify (sock_send sk dat).

Definition all_readers_updated (self : PubMaster.t) (s : string)
    : M World bool :=
  let! sk := lift (getitem (PubMaster.sock self) s) in
  reads (fun w => Ok (all_readers_updated_ sk w)).
End Methods.
End PubMasterSend.

(** ** Concrete collaborators *)

(** A few topics of the registry and of the [log.Event] schema; [can] is
    a list member. *)
Definition example_services : dict Service :=
  [("modelV2", {| frequency := 20.0 |});
   ("can", {| frequency := 100.0 |});
   ("userFlag", {| frequency := 0 |})].

Definition example_schema : dict FieldType :=
  [("modelV2", StructField); ("can", ListField); ("userFlag", StructField);
   ("clocks", StructField)].

(** A registry with a topic published about once in eleven days. *)
Definition slow_services : dict Service :=
  [("clocks", {| frequency := 1e-6 |})].

(** A message for [clocks]. *)
Definition clocks_msg : Event.t :=
  Event.mk true 0 "clocks" (PStruct "clocks").

(** A message for [modelV2]. *)
Definition model_msg : Event.t :=
  Event.mk true 0 "modelV2" (PStruct "modelV2").

(** The aggregator a constructor call returns, or an empty one when the
    call raises. *)
Definition constructed (r : result SubMaster.t) : SubMaster.t :=
  match r with
  | Ok self => self
  | Raise _ => SubMaster.mk 0 [] [] [] [] [] [] [] [] [] [] [] [] []
  end.

(** Aggregators for three topics: as constructed with no option, with
    the simulation override, and with one topic on each ignore list. *)
Definition three_topics : list string := ["modelV2"; "can"; "userFlag"].

Definition plain_start : SubMaster.t :=
  constructed
    (SubMaster.__init__ example_schema false 0 three_topics
       None None None None).

Definition sim_start : SubMaster.t :=
  constructed
    (SubMaster.__init__ example_schema true 0 three_topics
       None None None None).

Definition ignoring_start : SubMaster.t :=
  constructed
    (SubMaster.__init__ example_schema false 0 three_topics
       None (Some ["modelV2"]) (Some ["can"]) (Some ["userFlag"])).

(** The same aggregator, constructed when the monotonic clock reads
    100 s. *)
Definition late_start : SubMaster.t :=
  constructed
    (SubMaster.__init__ example_schema false 100 three_topics
       None None None None).

(** An aggregator for the slow topic alone. *)
Definition slow_start : SubMaster.t :=
  constructed
    (SubMaster.__init__ example_schema false 0 ["clocks"]
       None None None None).

(** Modelled from the spec: a subscriber channel, [receive(nonBlocking)
    -> bytes | none], with a receive timeout set: a receive on an empty
    queue yields the absent value, blocking or not. *)
Definition queue_receive (non_blocking : bool) (queue : list bytes)
    : option bytes * list bytes :=
  match queue with
  | [] => (None, [])
  | dat :: queue' => (Some dat, queue')
  end.

(** Modelled from the spec: a subscriber channel whose receives,
    blocking or not, yield the scripted outcomes in turn (a message, or
    the absent value for a timeout or an empty queue). *)
Definition script_receive (non_blocking : bool) (script : list (option bytes))
    : option bytes * list (option bytes) :=
  match script with
  | [] => (None, [])
  | outcome :: script' => (outcome, script')
  end.

(** Modelled from the spec: a decoder for one-byte messages, [m] for a
    [modelV2] event and [c] for a [clocks] event; anything else does not
    decode. *)
Definition example_from_bytes (dat : bytes) : result Event.t :=
  match dat with
  | [Byte.x6d] => Ok model_msg
  | [Byte.x63] => Ok clocks_msg
  | _ => Raise KjException
  end.

(** Modelled from the spec: the serialisation that decoder reads. *)
Definition example_to_bytes (msg : Event.t) : bytes :=
  if decide (Event.which msg = "modelV2") then [Byte.x6d] else [Byte.x63].

(** Modelled from the spec: a transport that keeps, in order, what every
    publisher socket was handed, and whose readers have always caught
    up. *)
Definition wire_send (sock : string) (dat : bytes)
    (wire : list (string * bytes)) : list (string * bytes) :=
  wire ++ [(sock, dat)].

Definition wire_all_readers_updated (sock : string)
    (wire : list (string * bytes)) : bool :=
  true.

(** Modelled from the spec: a world with a clock, where the readers of
    every socket have caught up from the instant [ready_at] on, and a
    sleep takes exactly its argument; as [time.sleep] does, it raises
    [ValueError] on a negative length. *)
Record ClockWorld : Type := { clock : float; ready_at : float }.

Definition clock_all_readers_updated (sock : string) (w : ClockWorld) : bool :=
  (ready_at w <=? clock w)%float.

Definition clock_slept (dt : float) (w : ClockWorld) : ClockWorld :=
  {| clock := (clock w + dt)%float; ready_at := ready_at w |}.

Definition clock_sleep (dt : float) : M ClockWorld unit :=
  fun w =>
    if (dt <? 0)%float then (Raise ValueError, w)
    else (Ok tt, clock_slept dt w).

(** ** Vocabulary of the statements *)

(** The mean of a history of inter-arrival intervals, as [update_msgs]
    computes it: [sum(dts) / len(dts)]. *)
Definition mean (dts : list float) : float :=
  (py_sum dts / float_of_Z (Z.of_nat (length dts)))%float.

(** What [update_msgs] at time [cur_time] assigns to [alive[s]] and
    [freq_ok[s]], read off the state [self] the health loop starts in. *)
Definition health_of (SERVICE_LIST : dict Service) (cur_time : float)
    (self : SubMaster.t) (s : string) (al fo : bool) : Prop :=
  exists svc,
    dict_get SERVICE_LIST s = Some svc /\
    if (1e-5 <? frequency svc)%float then
      exists rt,
        dict_get (SubMaster.recv_time self) s = Some rt /\
        al = ((cur_time - rt) <? 10.0 / frequency svc)%float /\
        exists chk,
          SubMaster._check_avg_freq SERVICE_LIST self s = Ok chk /\
          if chk then
            exists dts,
              dict_get (SubMaster.recv_dts self) s = Some dts /\
              fo = match dts with
                   | [] => false
                   | _ :: _ => (mean dts <? 1 / (frequency svc * 0.90))%float
                   end
          else fo = true
    else al = true /\ fo = true.

(** The placeholder payload the constructor stores for topic [s]: what
    [new_message(s)] initialises, or [new_message(s, 0)] for a list. *)
Definition placeholder (schema : dict FieldType) (s : string) : option Payload :=
  match dict_get schema s with
  | Some StructField => Some (PStruct s)
  | Some ListField => Some (PList s 0)
  | None => None
  end.

(** The state of a freshly constructed aggregator. *)
Definition initial (schema : dict FieldType) (simulation : bool)
    (services : list string)
    (ignore_alive_ ignore_avg_freq ignore_valid_ : option (list string))
    (self : SubMaster.t) : Prop :=
  SubMaster.frame self = -1 /\
  SubMaster.ignore_average_freq self
    = (if simulation then services else default [] ignore_avg_freq) /\
  SubMaster.ignore_alive self
    = (if simulation then services else default [] ignore_alive_) /\
  SubMaster.ignore_valid self = default [] ignore_valid_ /\
  forall s,
    if bool_decide (s ∈ services) then
      dict_get (SubMaster.updated self) s = Some false /\
      dict_get (SubMaster.recv_time self) s = Some 0%float /\
      dict_get (SubMaster.recv_frame self) s = Some 0 /\
      dict_get (SubMaster.alive self) s = Some false /\
      dict_get (SubMaster.freq_ok self) s = Some false /\
      dict_get (SubMaster.recv_dts self) s = Some [] /\
      (exists p, placeholder schema s = Some p /\
                 dict_get (SubMaster.data self) s = Some p) /\
      dict_get (SubMaster.valid self) s = Some true /\
      dict_get (SubMaster.logMonoTime self) s = Some 0
    else
      dict_get (SubMaster.updated self) s = None /\
      dict_get (SubMaster.recv_time self) s = None /\
      dict_get (SubMaster.recv_frame self) s = None /\
      dict_get (SubMaster.alive self) s = None /\
      dict_get (SubMaster.freq_ok self) s = None /\
      dict_get (SubMaster.recv_dts self) s = None /\
      dict_get (SubMaster.data self) s = None /\
      dict_get (SubMaster.valid self) s = None /\
      dict_get (SubMaster.logMonoTime self) s = None.

(** No topic keeps more than [AVG_FREQ_HISTORY] intervals. *)
Definition history_bounded (self : SubMaster.t) : Prop :=
  forall s dts,
    dict_get (SubMaster.recv_dts self) s = Some dts ->
    (length dts <= AVG_FREQ_HISTORY)%nat.

(** Every tracked topic (a key of [data]) is in the registry and has a
    receive time and a bounded history. *)
Definition well_formed (SERVICE_LIST : dict Service) (self : SubMaster.t)
    : Prop :=
  history_bounded self /\
  forall s, s ∈ dict_keys (SubMaster.data self) ->
    is_Some (dict_get SERVICE_LIST s) /\
    is_Some (dict_get (SubMaster.recv_time self) s) /\
    is_Some (dict_get (SubMaster.recv_dts self) s).

(** The messages of a tick are all for tracked topics. *)
Definition tracked_messages (self : SubMaster.t)
    (msgs : list (option Event.t)) : Prop :=
  forall m, Some m ∈ msgs -> Event.which m ∈ dict_keys (SubMaster.data self).

(** The messages of a tick hold none for topic [s]. *)
Definition no_message_for (s : string) (msgs : list (option Event.t)) : Prop :=
  forall m, Some m ∈ msgs -> Event.which m <> s.

(** What the aggregator holds for topic [s] besides the health flags. *)
Definition received (s : string) (st : SubMaster.t) :=
  (dict_get (SubMaster.recv_time st) s, dict_get (SubMaster.recv_dts st) s,
   dict_get (SubMaster.recv_frame st) s, dict_get (SubMaster.data st) s,
   dict_get (SubMaster.valid st) s, dict_get (SubMaster.logMonoTime st) s).

(** The configuration of the aggregator. *)
Definition config (st : SubMaster.t) :=
  (SubMaster.non_polled_services st, SubMaster.ignore_average_freq st,
   SubMaster.ignore_alive st, SubMaster.ignore_valid st).

(** The dictionaries of the aggregator have exactly the topics
    [services] as keys. *)
Definition tracks (services : list string) (st : SubMaster.t) : Prop :=
  forall s,
    if bool_decide (s ∈ services) then
      is_Some (dict_get (SubMaster.recv_time st) s) /\
      is_Some (dict_get (SubMaster.recv_dts st) s) /\
      is_Some (dict_get (SubMaster.data st) s) /\
      is_Some (dict_get (SubMaster.valid st) s) /\
      is_Some (dict_get (SubMaster.alive st) s) /\
      is_Some (dict_get (SubMaster.freq_ok st) s)
    else
      dict_get (SubMaster.recv_time st) s = None /\
      dict_get (SubMaster.recv_dts st) s = None /\
      dict_get (SubMaster.data st) s = None /\
      dict_get (SubMaster.valid st) s = None /\
      dict_get (SubMaster.alive st) s = None /\
      dict_get (SubMaster.freq_ok st) s = None.

(** The world after [k] sleeps of [dt]: where the [k]-th poll of
    [wait_for_readers_to_update] (counting from 0) finds it. *)
Definition sleeps {World : Type} (sleep : float -> World -> World)
    (dt : float) (k : nat) (w : World) : World :=
  Nat.iter k (sleep dt) w.

(** The messages of a tick that are for topic [s], in arrival order. *)
Fixpoint msgs_for (s : string) (msgs : list (option Event.t)) : list Event.t :=
  match msgs with
  | [] => []
  | None :: msgs' => msgs_for s msgs'
  | Some m :: msgs' =>
      if decide (Event.which m = s) then m :: msgs_for s msgs'
      else msgs_for s msgs'
  end.

(** Successive non-blocking receives on [sock] yield the messages [ds],
    then the absent value, and leave the socket as [sock']. *)
Fixpoint yields {SubSocket : Type}
    (receive : bool -> SubSocket -> option bytes * SubSocket)
    (ds : list bytes) (sock sock' : SubSocket) : Prop :=
  match ds with
  | [] => receive true sock = (None, sock')
  | d :: ds' =>
      exists sock1, receive true sock = (Some d, sock1)
                    /\ yields receive ds' sock1 sock'
  end.

(** [k] blocking receives on [sock] time out, and the next one yields
    [d] and leaves the socket as [sock']. *)
Fixpoint times_out_then {SubSocket : Type}
    (receive : bool -> SubSocket -> option bytes * SubSocket)
    (k : nat) (d : bytes) (sock sock' : SubSocket) : Prop :=
  match k with
  | O => receive false sock = (Some d, sock')
  | S k' =>
      exists sock1, receive false sock = (None, sock1)
                    /\ times_out_then receive k' d sock1 sock'
  end.

(** Decoding a list of messages, raising at the first that does not
    decode. *)
Fixpoint decode_all (log_from_bytes : bytes -> result Event.t)
    (ds : list bytes) : result (list Event.t) :=
  match ds with
  | [] => Ok []
  | d :: ds' =>
      match log_from_bytes d with
      | Ok m =>
          match decode_all log_from_bytes ds' with
          | Ok ms => Ok (m :: ms)
          | Raise e => Raise e
          end
      | Raise e => Raise e
      end
  end.

(** A binary64 value, in its specification form, that is not a zero. *)
Definition SFnonzero (x : spec_float) : bool :=
  match x with
  | S754_zero _ => false
  | _ => true
  end.

(** * Properties *)

(** ** Floats *)

Section FloatFacts.
Local Open Scope float_scope.

(** Subtracting the float [0.] changes nothing, whatever the float. *)
Lemma sub_zero_r x : x - 0 = x.
Proof.
  apply Prim2SF_inj. rewrite sub_spec.
  change (Prim2SF 0) with (S754_zero false).
  destruct (Prim2SF x) as [[]|[]| |s m e]; reflexivity.
Qed.

Lemma SFcompare_antisym x y :
  SFcompare y x = option_map CompOpp (SFcompare x y).
Proof.
  destruct x as [[]|[]| |[] mx ex], y as [[]|[]| |[] my ey];
    simpl; try reflexivity.
  - rewrite (Z.compare_antisym ey ex).
    destruct (ey ?= ex)%Z; simpl; try reflexivity.
    by rewrite Pos.compare_cont_antisym, CompOpp_involutive.
  - rewrite (Z.compare_antisym ey ex).
    destruct (ey ?= ex)%Z; simpl; try reflexivity.
    by rewrite Pos.compare_cont_antisym.
Qed.

Lemma leb_ltb_false a b : (a <=? b) = true → (b <? a) = false.
Proof.
  intros H. rewrite FloatAxioms.leb_spec in H. rewrite FloatAxioms.ltb_spec.
  revert H. unfold SFleb, SFltb.
  rewrite (SFcompare_antisym (Prim2SF a) (Prim2SF b)).
  destruct (SFcompare (Prim2SF a) (Prim2SF b)) as [[]|]; simpl; congruence.
Qed.

(** Float multiplication commutes: [0.9 * f] and [f * 0.90] are the same
    float. *)
Lemma float_mul_comm x y : x * y = y * x.
Proof.
  apply Prim2SF_inj. rewrite !mul_spec. unfold SF64mul.
  destruct (Prim2SF x) as [sx|sx| |sx mx ex],
           (Prim2SF y) as [sy|sy| |sy my ey];
    simpl; rewrite ?(xorb_comm sx sy), ?(Pos.mul_comm mx my),
             ?(Z.add_comm ex ey); reflexivity.
Qed.

Lemma Zdigits2_shr_1 s :
  Zdigits2 (shr_m (shr_1 s)) = Z.max 0 (Zdigits2 (shr_m s) - 1).
Proof.
  destruct s as [[|[p|p|]|[p|p|]] r b];
    unfold shr_1, shr_m, Zdigits2, digits2_pos; fold digits2_pos; lia.
Qed.

Lemma Zdigits2_nonneg z : (0 ≤ Zdigits2 z)%Z.
Proof. destruct z; simpl; lia. Qed.

Lemma Zdigits2_iter_shr_1 p s :
  Zdigits2 (shr_m (SpecFloat.iter_pos shr_1 p s))
  = Z.max 0 (Zdigits2 (shr_m s) - Zpos p).
Proof.
  revert s. induction p as [p IH|p IH|]; intros s; simpl.
  - rewrite !IH, Zdigits2_shr_1. pose proof (Zdigits2_nonneg (shr_m s)). lia.
  - rewrite !IH. pose proof (Zdigits2_nonneg (shr_m s)). lia.
  - apply Zdigits2_shr_1.
Qed.

Lemma shr_1_nonneg s : (0 ≤ shr_m s → 0 ≤ shr_m (shr_1 s))%Z.
Proof. destruct s as [[|[p|p|]|[p|p|]] r b]; simpl; lia. Qed.

Lemma iter_shr_1_nonneg p s :
  (0 ≤ shr_m s → 0 ≤ shr_m (SpecFloat.iter_pos shr_1 p s))%Z.
Proof.
  revert s. induction p as [p IH|p IH|]; intros s Hs; simpl.
  - apply IH, IH, shr_1_nonneg, Hs.
  - apply IH, IH, Hs.
  - apply shr_1_nonneg, Hs.
Qed.

(** Shifting a mantissa into the format never shifts all of its digits
    out, as long as the exponent is not below the smallest one. *)
Lemma shr_fexp_digits m e l :
  (SpecFloat.emin prec emax ≤ e)%Z → (0 < Zdigits2 m)%Z →
  (0 < Zdigits2 (shr_m (shr_fexp prec emax m e l).1))%Z
  ∧ (SpecFloat.emin prec emax ≤ (shr_fexp prec emax m e l).2)%Z
  ∧ ((0 ≤ m)%Z → (0 ≤ shr_m (shr_fexp prec emax m e l).1)%Z).
Proof.
  intros He Hm. unfold shr_fexp, shr, fexp.
  assert (shr_m (shr_record_of_loc m l) = m) as Hrec
    by (destruct l as [|[]]; reflexivity).
  destruct (Z.max (Zdigits2 m + e - prec) (SpecFloat.emin prec emax) - e)%Z
    as [|p|p] eqn:Hn; simpl.
  - rewrite Hrec. lia.
  - rewrite Zdigits2_iter_shr_1, Hrec. unfold prec in *.
    split; [lia|]. split; [lia|].
    intros H0. apply iter_shr_1_nonneg. by rewrite Hrec.
  - rewrite Hrec. lia.
Qed.

Lemma round_nearest_even_digits m l :
  (0 < Zdigits2 m)%Z → (0 ≤ m)%Z → (0 < Zdigits2 (round_nearest_even m l))%Z.
Proof.
  intros Hd Hm. destruct m as [|p|p]; simpl in *; try lia.
  destruct l as [|[]]; simpl; try lia.
  destruct p; simpl; lia.
Qed.

(** Rounding a positive mantissa with an exponent in range never gives a
    zero. *)
Lemma binary_round_aux_nonzero s m e :
  (SpecFloat.emin prec emax ≤ e)%Z →
  SFnonzero (binary_round_aux prec emax s (Zpos m) e loc_Exact) = true.
Proof.
  intros He. unfold binary_round_aux.
  pose proof (shr_fexp_digits (Zpos m) e loc_Exact He) as H1.
  destruct (shr_fexp prec emax (Zpos m) e loc_Exact) as [mrs1 e1].
  simpl in H1. destruct H1 as (Hd1 & He1 & Hpos1); [simpl; lia|].
  specialize (Hpos1 ltac:(lia)).
  pose proof (round_nearest_even_digits (shr_m mrs1)
                (loc_of_shr_record mrs1) Hd1 Hpos1) as Hd2.
  pose proof (shr_fexp_digits _ e1 loc_Exact He1 Hd2) as H2.
  destruct (shr_fexp prec emax _ e1 loc_Exact) as [mrs2 e2].
  simpl in H2. destruct H2 as [Hd3 _].
  destruct (shr_m mrs2); simpl in Hd3; try lia; try reflexivity.
  destruct (_ <=? _)%Z; reflexivity.
Qed.

Lemma SFnonzero_eqb x s :
  SFnonzero x = true → SFeqb x (S754_zero s) = false.
Proof. destruct x as [b|b| |b m e]; try done; by destruct b. Qed.

(** A frequency above the [1e-5] guard is not zero, so [10. / f] does
    not raise. *)
Lemma gt_threshold_nonzero f : (1e-5 <? f) = true → (f =? 0) = false.
Proof.
  intros H. rewrite FloatAxioms.ltb_spec in H. rewrite FloatAxioms.eqb_spec.
  revert H. destruct (Prim2SF f) as [s|s| |s m e]; vm_compute; try congruence.
  all: destruct s; congruence.
Qed.

(** Nor is nine tenths of it, so [1 / (f * 0.90)] does not raise. *)
Lemma gt_threshold_scaled_nonzero f :
  (1e-5 <? f) = true → (f * 0.90 =? 0) = false.
Proof.
  intros H. rewrite FloatAxioms.ltb_spec in H.
  rewrite FloatAxioms.eqb_spec, mul_spec.
  change (Prim2SF 0) with (S754_zero false).
  apply SFnonzero_eqb. revert H.
  change (Prim2SF 1e-5) with (S754_finite false 5902958103587057 (-69)).
  change (Prim2SF 0.90) with (S754_finite false 8106479329266893 (-53)).
  destruct (Prim2SF f) as [s|s| |s m e]; try (by destruct s).
  - done.
  - destruct s; [done|]. unfold SFltb, SFcompare, SF64mul, SFmul.
    intros H. apply binary_round_aux_nonzero.
    destruct (Z.compare_spec (-69) e); try done; unfold SpecFloat.emin, prec, emax; lia.
Qed.

(** The length of a history, at most [AVG_FREQ_HISTORY], converts to a
    float that is not zero, so the mean does not raise. *)
Lemma float_of_len_nonzero (n : nat) :
  (0 < n ≤ AVG_FREQ_HISTORY)%nat →
  (float_of_Z (Z.of_nat n) =? 0) = false.
Proof.
  intros Hn.
  assert (forallb (fun k => negb (float_of_Z (Z.of_nat k) =? 0))
            (seq 1 AVG_FREQ_HISTORY) = true) as Hall by (vm_compute; reflexivity).
  rewrite forallb_forall in Hall.
  specialize (Hall n). rewrite negb_true_iff in Hall. apply Hall.
  apply in_seq. lia.
Qed.
End FloatFacts.

(** ** Dictionaries *)

Section DictFacts.
Context {V : Type}.
Implicit Types (d : dict V) (k : string) (v : V).

Lemma dict_get_set_eq d k v : dict_get (dict_set k v d) k = Some v.
Proof.
  induction d as [|[k' v'] d IH]; simpl.
  - by rewrite decide_True.
  - destruct (decide (k' = k)) as [->|Hne]; simpl.
    + by rewrite decide_True.
    + by rewrite decide_False.
Qed.

Lemma dict_get_set_ne d k k' v :
  k ≠ k' → dict_get (dict_set k v d) k' = dict_get d k'.
Proof.
  intros Hne. induction d as [|[k0 v0] d IH]; simpl.
  - by rewrite decide_False.
  - destruct (decide (k0 = k)) as [->|Hne0]; simpl.
    + by rewrite !decide_False.
    + by rewrite IH.
Qed.

Lemma dict_get_set d k k' v :
  dict_get (dict_set k v d) k' =
  if decide (k = k') then Some v else dict_get d k'.
Proof.
  destruct (decide (k = k')) as [->|Hne].
  - apply dict_get_set_eq.
  - by apply dict_get_set_ne.
Qed.

Lemma dict_keys_spec d k : k ∈ dict_keys d ↔ is_Some (dict_get d k).
Proof.
  unfold dict_keys. induction d as [|[k' v'] d IH]; simpl.
  - split; [by intros ?%elem_of_nil | by intros [? ?]].
  - rewrite elem_of_cons, IH. destruct (decide (k' = k)) as [->|Hne].
    + split; [by eauto | by left].
    + split; [by intros [?|?] | by right].
Qed.

Lemma dict_keys_set d k v :
  is_Some (dict_get d k) → dict_keys (dict_set k v d) = dict_keys d.
Proof.
  unfold dict_keys. induction d as [|[k' v'] d IH]; simpl.
  - by intros [? ?].
  - destruct (decide (k' = k)) as [->|Hne]; simpl; [done|].
    intros H. by rewrite IH.
Qed.

Lemma dict_get_comp_fold (f : string → V) ks d k :
  dict_get (fold_left (fun d s => dict_set s (f s) d) ks d) k =
  if bool_decide (k ∈ ks) then Some (f k) else dict_get d k.
Proof.
  revert d. induction ks as [|s ks IH]; intros d; simpl.
  - done.
  - rewrite IH, dict_get_set.
    destruct (decide (s = k)) as [->|Hne].
    + rewrite (bool_decide_eq_true_2 (k ∈ k :: ks)) by (by left).
      by destruct (bool_decide (k ∈ ks)).
    + destruct (bool_decide_reflect (k ∈ ks)) as [Hin|Hin].
      * by rewrite bool_decide_eq_true_2 by (by right).
      * by rewrite bool_decide_eq_false_2
          by (intros [?|?]%elem_of_cons; done).
Qed.

Lemma dict_get_comp (f : string → V) ks k :
  dict_get (dict_comp ks f) k =
  if bool_decide (k ∈ ks) then Some (f k) else None.
Proof. unfold dict_comp. by rewrite dict_get_comp_fold. Qed.

Lemma dict_get_fromkeys {W} d (w : W) k :
  dict_get (dict_fromkeys d w) k = (fun _ => w) <$> dict_get d k.
Proof.
  unfold dict_fromkeys. induction d as [|[k' v'] d IH]; simpl; [done|].
  by destruct (decide (k' = k)).
Qed.

Lemma getitem_Ok d k v : getitem d k = Ok v ↔ dict_get d k = Some v.
Proof. unfold getitem. destruct (dict_get d k); naive_solver. Qed.
End DictFacts.

(** ** The state-and-exception monad *)

Section MonadFacts.
Context {S : Type}.

Lemma keeps_ret {A X} (g : S → X) (a : A) : keeps g (ret a).
Proof. by intros st. Qed.

Lemma keeps_lift {A X} (g : S → X) (r : result A) : keeps g (lift r).
Proof. by intros st. Qed.

Lemma keeps_reads {A X} (g : S → X) (f : S → result A) : keeps g (reads f).
Proof. by intros st. Qed.

Lemma keeps_get {X} (g : S → X) : keeps g get.
Proof. by intros st. Qed.

Lemma keeps_modify {X} (g : S → X) (f : S → S) :
  (∀ st, g (f st) = g st) → keeps g (modify f).
Proof. intros H st. apply H. Qed.

Lemma keeps_bind {A B X} (g : S → X) (m : M S A) (k : A → M S B) :
  keeps g m → (∀ a, keeps g (k a)) → keeps g (bind m k).
Proof.
  intros Hm Hk st. unfold bind. specialize (Hm st).
  destruct (m st) as [[a|e] st']; simpl in *.
  - by rewrite Hk.
  - done.
Qed.

Lemma keeps_for_each {A X} (g : S → X) (l : list A) (body : A → M S unit) :
  (∀ x, keeps g (body x)) → keeps g (for_each l body).
Proof.
  intros Hb. induction l as [|x l IH]; simpl.
  - apply keeps_ret.
  - apply keeps_bind; [apply Hb | intros _; apply IH].
Qed.

Lemma preserves_ret {A} (I : S → Prop) (a : A) : preserves I (ret a).
Proof. by intros st. Qed.

Lemma preserves_lift {A} (I : S → Prop) (r : result A) : preserves I (lift r).
Proof. by intros st. Qed.

Lemma preserves_reads {A} (I : S → Prop) (f : S → result A) :
  preserves I (reads f).
Proof. by intros st. Qed.

Lemma preserves_get (I : S → Prop) : preserves I get.
Proof. by intros st. Qed.

Lemma preserves_modify (I : S → Prop) (f : S → S) :
  (∀ st, I st → I (f st)) → preserves I (modify f).
Proof. intros H st. apply H. Qed.

Lemma preserves_bind {A B} (I : S → Prop) (m : M S A) (k : A → M S B) :
  preserves I m → (∀ a, preserves I (k a)) → preserves I (bind m k).
Proof.
  intros Hm Hk st HI. unfold bind. specialize (Hm st HI).
  destruct (m st) as [[a|e] st']; simpl in *; [by apply Hk | done].
Qed.

Lemma preserves_for_each_in {A} (I : S → Prop) (l : list A)
    (body : A → M S unit) :
  (∀ x, x ∈ l → preserves I (body x)) → preserves I (for_each l body).
Proof.
  induction l as [|x l IH]; intros Hb; simpl.
  - apply preserves_ret.
  - apply preserves_bind; [apply Hb; by left | intros _; apply IH].
    intros y Hy. apply Hb. by right.
Qed.

Lemma keeps_for_each_in {A X} (g : S → X) (l : list A) (body : A → M S unit) :
  (∀ x, x ∈ l → keeps g (body x)) → keeps g (for_each l body).
Proof.
  induction l as [|x l IH]; intros Hb; simpl.
  - apply keeps_ret.
  - apply keeps_bind; [apply Hb; by left | intros _; apply IH].
    intros y Hy. apply Hb. by right.
Qed.

Lemma bind_modify {B} (f : S → S) (k : unit → M S B) st :
  bind (modify f) k st = k tt (f st).
Proof. done. Qed.

Lemma bind_Ok_inv {A B} (m : M S A) (k : A → M S B) st b st' :
  bind m k st = (Ok b, st') →
  ∃ a st1, m st = (Ok a, st1) ∧ k a st1 = (Ok b, st').
Proof.
  unfold bind. destruct (m st) as [[a|e] st1]; [eauto | discriminate].
Qed.

(** A loop whose body never raises under an invariant never raises. *)
Lemma for_each_total {A} (I : S → Prop) (l : list A) (body : A → M S unit) :
  (∀ x st, x ∈ l → I st → ∃ st', body x st = (Ok tt, st') ∧ I st') →
  ∀ st, I st → ∃ st', for_each l body st = (Ok tt, st') ∧ I st'.
Proof.
  induction l as [|x l IH]; intros Hb st HI; simpl.
  - by exists st.
  - destruct (Hb x st) as (st1 & H1 & HI1); [by left|done|].
    destruct (IH (fun y st Hy => Hb y st (list_elem_of_further _ _ _ Hy)) st1 HI1)
      as (st' & H' & HI').
    exists st'. unfold bind. by rewrite H1.
Qed.

(** An invariant of the loop body is an invariant of the loop. *)
Lemma for_each_invariant {A} (I : S → Prop) (l : list A) (body : A → M S unit) :
  (∀ x st, I st → I (body x st).2) →
  ∀ st, I st → I (for_each l body st).2.
Proof.
  intros Hb. induction l as [|x l IH]; intros st HI; simpl; [done|].
  unfold bind. specialize (Hb x st HI).
  destruct (body x st) as [[[]|e] st1]; simpl in *; [by apply IH | done].
Qed.
End MonadFacts.

Ltac keeps_step_flat :=
  first
    [ apply keeps_ret | apply keeps_lift | apply keeps_reads | apply keeps_get
    | apply keeps_bind; [| intros ?]
    | apply keeps_modify; intros ?; simpl;
      rewrite ?dict_get_set_ne by done; by eauto
    | match goal with
      | |- keeps _ (if ?b then _ else _) => destruct b
      | |- keeps _ (match ?x with _ => _ end) => destruct x
      end ].
Ltac preserves_step :=
  first
    [ apply preserves_ret | apply preserves_lift | apply preserves_reads
    | apply preserves_get
    | apply preserves_bind; [| intros ?]
    | match goal with
      | |- preserves _ (if ?b then _ else _) => destruct b
      | |- preserves _ (match ?x with _ => _ end) => destruct x
      end ].
Ltac preserves_tac := repeat preserves_step.
Ltac keeps_step := first [ keeps_step_flat | apply keeps_for_each; intros ? ].
Ltac keeps_flat := repeat keeps_step_flat.
Ltac keeps_tac := repeat keeps_step.


(** ** SubMaster: what each step leaves alone *)

Import SubMaster.

Section SubMasterFrames.
Context (SERVICE_LIST : dict Service) (schema : dict FieldType).

(** The constructor's loop only assigns [data], [logMonoTime], [valid]. *)
Lemma init_service_keeps {X} (g : t → X) monotonic s :
  (∀ v st, g (set_data v st) = g st) →
  (∀ v st, g (set_logMonoTime v st) = g st) →
  (∀ v st, g (set_valid v st) = g st) →
  keeps g (init_service schema monotonic s).
Proof. intros Hd Hl Hv. unfold init_service. keeps_tac. Qed.

(** Taking in a message never touches [frame], [alive], [freq_ok] or the
    configuration. *)
Lemma update_msg_keeps {X} (g : t → X) cur_time msg :
  (∀ v st, g (set_updated v st) = g st) →
  (∀ v st, g (set_recv_dts v st) = g st) →
  (∀ v st, g (set_recv_time v st) = g st) →
  (∀ v st, g (set_recv_frame v st) = g st) →
  (∀ v st, g (set_data v st) = g st) →
  (∀ v st, g (set_logMonoTime v st) = g st) →
  (∀ v st, g (set_valid v st) = g st) →
  keeps g (update_msg cur_time msg).
Proof. intros H1 H2 H3 H4 H5 H6 H7. unfold update_msg. keeps_tac. Qed.

(** The health check of topic [s] only assigns [alive[s]] and
    [freq_ok[s]]. *)
Lemma update_service_keeps {X} (g : t → X) cur_time s :
  (∀ v st, g (set_alive (dict_set s v (alive st)) st) = g st) →
  (∀ v st, g (set_freq_ok (dict_set s v (freq_ok st)) st) = g st) →
  keeps g (update_service SERVICE_LIST cur_time s).
Proof. intros Ha Hf. unfold update_service. keeps_tac. Qed.

Lemma update_msgs_frame cur_time msgs self :
  frame (update_msgs SERVICE_LIST cur_time msgs self).2 = frame self + 1.
Proof.
  unfold update_msgs. rewrite bind_modify.
  match goal with
  | |- frame (?m ?st).2 = _ => assert (Hk : keeps frame m)
  end.
  { keeps_tac; first [by apply update_msg_keeps | by apply update_service_keeps]. }
  by rewrite Hk.
Qed.

Lemma run_updates_app ticks1 ticks2 self :
  run_updates SERVICE_LIST (ticks1 ++ ticks2) self =
  run_updates SERVICE_LIST ticks2 (run_updates SERVICE_LIST ticks1 self).
Proof. unfold run_updates. apply fold_left_app. Qed.

Lemma run_updates_frame ticks self :
  frame (run_updates SERVICE_LIST ticks self) =
  frame self + Z.of_nat (length ticks).
Proof.
  revert self. induction ticks as [|tick ticks IH]; intros self; simpl.
  - lia.
  - unfold run_updates in *. simpl. rewrite IH, update_msgs_frame. lia.
Qed.

Lemma init_frame simulation monotonic services poll ia iaf iv self :
  __init__ schema simulation monotonic services poll ia iaf iv = Ok self →
  frame self = -1.
Proof.
  unfold __init__. intros H.
  match type of H with
  | match for_each ?l ?body ?st0 with _ => _ end = _ =>
      pose proof (keeps_for_each frame l body
                    (fun s => init_service_keeps frame monotonic s
                                (fun _ _ => eq_refl) (fun _ _ => eq_refl)
                                (fun _ _ => eq_refl)) st0) as Hk;
      destruct (for_each l body st0) as [[[]|e] st1]
  end; simplify_eq. simpl in Hk. done.
Qed.

(** C6: the frame counter is [-1] after construction, [0] after the
    first update, grows by exactly one on every [update_msgs] call
    whatever the messages (and whether or not the call raises), so after
    [n] calls it is [n - 1], and it never decreases along a run. *)
Theorem frame_counter simulation monotonic services poll ia iaf iv self :
  __init__ schema simulation monotonic services poll ia iaf iv = Ok self →
  frame self = -1
  ∧ (∀ cur_time msgs,
       frame (update_msgs SERVICE_LIST cur_time msgs self).2 = 0)
  ∧ (∀ self' cur_time msgs,
       frame (update_msgs SERVICE_LIST cur_time msgs self').2 = frame self' + 1)
  ∧ (∀ ticks,
       frame (run_updates SERVICE_LIST ticks self) = Z.of_nat (length ticks) - 1)
  ∧ (∀ ticks1 ticks2,
       frame (run_updates SERVICE_LIST ticks1 self)
       ≤ frame (run_updates SERVICE_LIST (ticks1 ++ ticks2) self)).
Proof.
  intros Hinit. pose proof (init_frame _ _ _ _ _ _ _ _ Hinit) as H0.
  repeat split.
  - done.
  - intros. rewrite update_msgs_frame. lia.
  - intros. apply update_msgs_frame.
  - intros. rewrite run_updates_frame. lia.
  - intros. rewrite run_updates_app, (run_updates_frame ticks2). lia.
Qed.
End SubMasterFrames.

(** ** SubMaster: the health loop *)

Section SubMasterHealth.
Context (SERVICE_LIST : dict Service).

Lemma py_div_Ok a b q : py_div a b = Ok q → q = (a / b)%float.
Proof. unfold py_div. destruct (b =? 0)%float; congruence. Qed.

Lemma check_avg_freq_ext self self' s :
  recv_time self' = recv_time self →
  non_polled_services self' = non_polled_services self →
  ignore_average_freq self' = ignore_average_freq self →
  ignore_alive self' = ignore_alive self →
  _check_avg_freq SERVICE_LIST self' s = _check_avg_freq SERVICE_LIST self s.
Proof. unfold _check_avg_freq. by intros -> -> -> ->. Qed.

Lemma health_of_ext cur_time self self' s al fo :
  recv_time self' = recv_time self →
  recv_dts self' = recv_dts self →
  non_polled_services self' = non_polled_services self →
  ignore_average_freq self' = ignore_average_freq self →
  ignore_alive self' = ignore_alive self →
  health_of SERVICE_LIST cur_time self s al fo →
  health_of SERVICE_LIST cur_time self' s al fo.
Proof.
  intros H1 H2 H3 H4 H5. unfold health_of.
  by rewrite H1, H2, (check_avg_freq_ext self self' s H1 H3 H4 H5).
Qed.

(** One pass of the loop body, when it does not raise. *)
Lemma update_service_Ok cur_time s self self' :
  update_service SERVICE_LIST cur_time s self = (Ok tt, self') →
  ∃ al fo,
    self' = set_freq_ok (dict_set s fo (freq_ok self))
              (set_alive (dict_set s al (alive self)) self)
    ∧ health_of SERVICE_LIST cur_time self s al fo.
Proof.
  unfold update_service, health_of, bind, lift, reads, modify, ret.
  intros H.
  repeat match type of H with
         | context [match ?x with _ => _ end] => destruct x eqn:?; simplify_eq
         end.
  all: rewrite ?getitem_Ok in *.
  all: do 2 eexists; split; [reflexivity|].
  all: eexists; split; [eassumption|].
  all: match goal with Hb : (_ <? frequency _)%float = _ |- _ => rewrite Hb end.
  all: try match goal with
           | Hd : py_div 10 _ = Ok _ |- _ => apply py_div_Ok in Hd; subst
           end.
  all: try (eexists; split; [eassumption|]; split; [reflexivity|];
            eexists; split; [eassumption|]; simpl).
  - repeat match goal with
           | Hd : py_div _ _ = Ok _ |- _ => apply py_div_Ok in Hd; subst
           end.
    eexists; split; [eassumption|]. by destruct a2.
  - eexists; split; [eassumption|]. by destruct a2.
  - done.
  - done.
Qed.

Lemma dict_set_is_Some {V} (d : dict V) k k' v :
  is_Some (dict_get d k') → is_Some (dict_get (dict_set k v d) k').
Proof.
  rewrite dict_get_set. by destruct (decide (k = k')).
Qed.

(** A topic that has its two flags keeps having them. *)
Lemma update_service_flags cur_time s s' :
  preserves (fun st => is_Some (dict_get (alive st) s')
                       ∧ is_Some (dict_get (freq_ok st) s'))
    (update_service SERVICE_LIST cur_time s).
Proof.
  unfold update_service. preserves_tac.
  all: apply preserves_modify; intros st [Ha Hf]; simpl;
    split; try done; by apply dict_set_is_Some.
Qed.

(** The loop leaves the flags of the topics it does not visit alone. *)
Lemma update_services_other cur_time keys s :
  s ∉ keys →
  keeps (fun st => (dict_get (alive st) s, dict_get (freq_ok st) s))
    (for_each keys (update_service SERVICE_LIST cur_time)).
Proof.
  intros Hs. induction keys as [|x keys IH]; simpl.
  - apply keeps_ret.
  - apply not_elem_of_cons in Hs as [Hne Hs].
    apply keeps_bind; [|intros _; by apply IH].
    apply update_service_keeps; intros v st; simpl;
      by rewrite dict_get_set_ne.
Qed.

(** The loop only ever assigns [alive] and [freq_ok]. *)
Lemma update_services_keeps {X} (g : t → X) cur_time keys :
  (∀ v st, g (set_alive v st) = g st) →
  (∀ v st, g (set_freq_ok v st) = g st) →
  keeps g (for_each keys (update_service SERVICE_LIST cur_time)).
Proof.
  intros Ha Hf. apply keeps_for_each. intros s.
  by apply update_service_keeps.
Qed.

(** The whole loop, when it does not raise: every visited topic gets
    the flags [health_of] describes. *)
Lemma update_services_Ok cur_time keys self self' :
  for_each keys (update_service SERVICE_LIST cur_time) self = (Ok tt, self') →
  ∀ s, s ∈ keys →
    ∃ al fo,
      dict_get (alive self') s = Some al
      ∧ dict_get (freq_ok self') s = Some fo
      ∧ health_of SERVICE_LIST cur_time self s al fo.
Proof.
  revert self. induction keys as [|x keys IH]; intros self Hrun s Hs.
  - by apply elem_of_nil in Hs.
  - simpl in Hrun. apply bind_Ok_inv in Hrun as ([] & st1 & Hx & Hrest).
    apply update_service_Ok in Hx as (al & fo & -> & Hh).
    destruct (decide (s ∈ keys)) as [Hin|Hnin].
    + destruct (IH _ Hrest s Hin) as (al' & fo' & Ha & Hf & Hh').
      exists al', fo'. split_and!; [done..|].
      revert Hh'. by apply health_of_ext.
    + apply elem_of_cons in Hs as [->|Hs]; [|done].
      pose proof (update_services_other cur_time keys x Hnin
                    (set_freq_ok (dict_set x fo (freq_ok self))
                       (set_alive (dict_set x al (alive self)) self))) as Hk.
      rewrite Hrest in Hk. simpl in Hk. rewrite !dict_get_set_eq in Hk.
      exists al, fo. by simplify_eq.
Qed.

(** [update_msgs], when it does not raise: every tracked topic gets the
    flags [health_of] describes, read off the state it returns. *)
Lemma update_msgs_Ok cur_time msgs self self' :
  update_msgs SERVICE_LIST cur_time msgs self = (Ok tt, self') →
  ∀ s, s ∈ dict_keys (data self') →
    ∃ al fo,
      dict_get (alive self') s = Some al
      ∧ dict_get (freq_ok self') s = Some fo
      ∧ health_of SERVICE_LIST cur_time self' s al fo.
Proof.
  unfold update_msgs. rewrite !bind_modify. intros Hrun.
  apply bind_Ok_inv in Hrun as ([] & mid & _ & Hrun).
  apply bind_Ok_inv in Hrun as (mid' & st1 & Hget & Hrun).
  unfold get in Hget. injection Hget as <- <-.
  pose proof (update_services_keeps data cur_time (dict_keys (data mid))
                (fun _ _ => eq_refl) (fun _ _ => eq_refl) mid) as Hdata.
  pose proof (update_services_keeps
                (fun st => (recv_time st, recv_dts st, non_polled_services st,
                            ignore_average_freq st, ignore_alive st))
                cur_time (dict_keys (data mid))
                (fun _ _ => eq_refl) (fun _ _ => eq_refl) mid) as Hin.
  rewrite Hrun in Hdata, Hin. simpl in Hdata, Hin. simplify_eq.
  intros s Hs. rewrite Hdata in Hs.
  destruct (update_services_Ok _ _ _ _ Hrun s Hs) as (al & fo & Ha & Hf & Hh).
  exists al, fo. split_and!; [done..|].
  revert Hh. by apply health_of_ext.
Qed.
End SubMasterHealth.

(** ** SubMaster: taking in the messages *)

Section SubMasterMessages.
Context (SERVICE_LIST : dict Service).

Lemma deque_append_length maxlen d x :
  (0 < maxlen)%nat → (length d ≤ maxlen)%nat →
  (length (deque_append maxlen d x) ≤ maxlen)%nat.
Proof.
  intros Hpos Hd. unfold deque_append.
  destruct (Nat.ltb_spec maxlen (length (d ++ [x]))) as [Hlt|Hge]; [|done].
  rewrite length_app in Hlt. simpl in Hlt.
  destruct d as [|y d]; simpl in *; [lia|].
  rewrite length_app. simpl. lia.
Qed.

(** A full deque drops its oldest item to take the new one. *)
Lemma deque_append_full maxlen d x :
  (0 < maxlen)%nat → length d = maxlen →
  deque_append maxlen d x = tail d ++ [x].
Proof.
  intros Hpos Hd. unfold deque_append.
  rewrite length_app. simpl.
  destruct (Nat.ltb_spec maxlen (length d + 1)) as [_|Hge]; [|lia].
  destruct d; simpl in *; [lia|done].
Qed.

Lemma deque_append_room maxlen d x :
  (length d < maxlen)%nat → deque_append maxlen d x = d ++ [x].
Proof.
  intros Hd. unfold deque_append. rewrite length_app. simpl.
  destruct (Nat.ltb_spec maxlen (length d + 1)) as [Hlt|_]; [lia|done].
Qed.

(** What a message for a tracked topic does. *)
Lemma update_msg_Ok cur_time m self dts rt :
  dict_get (recv_dts self) (Event.which m) = Some dts →
  dict_get (recv_time self) (Event.which m) = Some rt →
  update_msg cur_time (Some m) self =
  (Ok tt,
   let s := Event.which m in
   mk (frame self)
      (dict_set s true (updated self))
      (dict_set s cur_time (recv_time self))
      (dict_set s (frame self) (recv_frame self))
      (alive self) (freq_ok self)
      (dict_set s (deque_append AVG_FREQ_HISTORY dts (cur_time - rt)%float)
         (recv_dts self))
      (dict_set s (Event.payload m) (data self))
      (dict_set s (Event.valid m) (valid self))
      (dict_set s (Event.logMonoTime m) (logMonoTime self))
      (non_polled_services self) (ignore_average_freq self)
      (ignore_alive self) (ignore_valid self)).
Proof.
  intros Hd Hr. unfold update_msg, bind, modify, reads, lift, getitem,
    capnp_getattr. simpl.
  rewrite Hd, Hr. by rewrite decide_True.
Qed.

(** A message, whether it is taken in or raises half-way, either leaves
    every history alone or appends one interval to its topic's. *)
Lemma update_msg_recv_dts cur_time msg self :
  recv_dts (update_msg cur_time msg self).2 = recv_dts self
  ∨ ∃ m dts rt,
      msg = Some m
      ∧ dict_get (recv_dts self) (Event.which m) = Some dts
      ∧ dict_get (recv_time self) (Event.which m) = Some rt
      ∧ recv_dts (update_msg cur_time msg self).2 =
        dict_set (Event.which m)
          (deque_append AVG_FREQ_HISTORY dts (cur_time - rt)%float)
          (recv_dts self).
Proof.
  destruct msg as [m|]; [|by left].
  destruct (dict_get (recv_dts self) (Event.which m)) as [dts|] eqn:Hd.
  - destruct (dict_get (recv_time self) (Event.which m)) as [rt|] eqn:Hr.
    + right. exists m, dts, rt. by rewrite (update_msg_Ok _ _ _ dts rt).
    + left. unfold update_msg, bind, modify, reads, lift, getitem. simpl.
      by rewrite Hd, Hr.
  - left. unfold update_msg, bind, modify, reads, lift, getitem. simpl.
    by rewrite Hd.
Qed.

Lemma update_msg_history_bounded cur_time msg self :
  history_bounded self → history_bounded (update_msg cur_time msg self).2.
Proof.
  intros Hb s dts.
  destruct (update_msg_recv_dts cur_time msg self)
    as [->|(m & dts0 & rt & -> & Hd & Hr & ->)]; [by apply Hb|].
  rewrite dict_get_set. destruct (decide (Event.which m = s)) as [<-|Hne].
  - intros [= <-]. apply deque_append_length; [unfold AVG_FREQ_HISTORY; lia|].
    by eapply Hb.
  - by apply Hb.
Qed.

Lemma update_msgs_history_bounded cur_time msgs self :
  history_bounded self →
  history_bounded (update_msgs SERVICE_LIST cur_time msgs self).2.
Proof.
  intros Hb. unfold update_msgs. rewrite !bind_modify.
  set (st0 := set_updated _ _).
  assert (history_bounded st0) as Hb0 by done.
  pose proof (for_each_invariant history_bounded msgs (update_msg cur_time)
                (fun x st => update_msg_history_bounded cur_time x st) st0 Hb0)
    as Hb1.
  unfold bind at 1.
  destruct (for_each msgs (update_msg cur_time) st0) as [[[]|e] mid];
    simpl in *; [|done].
  unfold bind, get.
  pose proof (update_services_keeps SERVICE_LIST recv_dts cur_time
                (dict_keys (data mid)) (fun _ _ => eq_refl)
                (fun _ _ => eq_refl) mid) as Hk.
  unfold history_bounded. by rewrite Hk.
Qed.

Lemma run_updates_history_bounded ticks self :
  history_bounded self →
  history_bounded (run_updates SERVICE_LIST ticks self).
Proof.
  revert self. induction ticks as [|tick ticks IH]; intros self Hb; [done|].
  apply IH. by apply update_msgs_history_bounded.
Qed.
End SubMasterMessages.

(** ** SubMaster: construction *)

Section SubMasterInit.
Context (schema : dict FieldType).

(** One pass of the constructor's loop, when it does not raise. *)
Lemma init_service_Ok monotonic s st st' :
  init_service schema monotonic s st = (Ok tt, st') →
  ∃ p, placeholder schema s = Some p
       ∧ st' = set_valid (dict_set s true (valid st))
                 (set_logMonoTime (dict_set s 0 (logMonoTime st))
                    (set_data (dict_set s p (data st)) st)).
Proof.
  unfold init_service, new_message, capnp_init, capnp_getattr, placeholder,
    bind, lift, modify, rbind.
  destruct (py_int _) as [ns|e]; [|by destruct e].
  destruct (dict_get schema s) as [[]|]; simpl; try done.
  all: rewrite decide_True by done; intros [= <-]; by eexists.
Qed.

(** One pass of the constructor's loop does not raise on a topic of the
    schema. *)
Lemma init_service_total monotonic s st ns :
  py_int (monotonic * 1e9)%float = Ok ns →
  is_Some (placeholder schema s) →
  ∃ st', init_service schema monotonic s st = (Ok tt, st').
Proof.
  intros Hns [p Hp]. revert Hp.
  unfold init_service, new_message, capnp_init, capnp_getattr, placeholder,
    bind, lift, modify, rbind.
  rewrite Hns.
  destruct (dict_get schema s) as [[]|]; simpl; try done.
  all: rewrite decide_True by done; by eexists.
Qed.

Lemma init_loop_Ok monotonic l st st' :
  for_each l (init_service schema monotonic) st = (Ok tt, st') →
  ∀ s,
    if bool_decide (s ∈ l) then
      (∃ p, placeholder schema s = Some p ∧ dict_get (data st') s = Some p)
      ∧ dict_get (valid st') s = Some true
      ∧ dict_get (logMonoTime st') s = Some 0
    else
      dict_get (data st') s = dict_get (data st) s
      ∧ dict_get (valid st') s = dict_get (valid st) s
      ∧ dict_get (logMonoTime st') s = dict_get (logMonoTime st) s.
Proof.
  revert st. induction l as [|x l IH]; intros st Hrun s.
  - simpl in Hrun. unfold ret in Hrun. by simplify_eq.
  - simpl in Hrun. apply bind_Ok_inv in Hrun as ([] & st1 & Hx & Hrest).
    apply init_service_Ok in Hx as (p & Hp & ->).
    specialize (IH _ Hrest s).
    destruct (bool_decide_reflect (s ∈ l)) as [Hin|Hnin].
    + by rewrite bool_decide_eq_true_2 by (by right).
    + destruct (decide (s = x)) as [->|Hne].
      * rewrite bool_decide_eq_true_2 by (by left).
        simpl in IH. rewrite !dict_get_set_eq in IH.
        destruct IH as (-> & -> & ->). eauto.
      * rewrite bool_decide_eq_false_2
          by (intros [?|?]%elem_of_cons; done).
        simpl in IH. by rewrite !dict_get_set_ne in IH.
Qed.

Lemma init_loop_total monotonic l st ns :
  py_int (monotonic * 1e9)%float = Ok ns →
  (∀ s, s ∈ l → is_Some (placeholder schema s)) →
  ∃ st', for_each l (init_service schema monotonic) st = (Ok tt, st').
Proof.
  intros Hns. revert st. induction l as [|x l IH]; intros st Hl; simpl.
  - by eexists.
  - destruct (init_service_total monotonic x st ns Hns) as [st1 H1].
    { apply Hl. by left. }
    destruct (IH st1) as [st' H']. { intros s Hs. apply Hl. by right. }
    exists st'. unfold bind. by rewrite H1.
Qed.

(** What the constructor returns. *)
Lemma init_initial simulation monotonic services poll ia iaf iv self :
  __init__ schema simulation monotonic services poll ia iaf iv = Ok self →
  initial schema simulation services ia iaf iv self.
Proof.
  unfold __init__. intros H.
  match type of H with
  | match for_each ?l ?body ?st0 with _ => _ end = _ =>
      pose proof (init_loop_Ok monotonic l st0) as Hloop;
      pose (g := fun st => (frame st, updated st, recv_time st,
                            recv_frame st, alive st, freq_ok st,
                            recv_dts st, ignore_average_freq st,
                            ignore_alive st, ignore_valid st));
      pose proof (keeps_for_each g l body
                    (fun s => init_service_keeps schema g monotonic s
                                (fun _ _ => eq_refl) (fun _ _ => eq_refl)
                                (fun _ _ => eq_refl)) st0) as Hk;
      destruct (for_each l body st0) as [[[]|e] st1]
  end; simplify_eq.
  subst g. simpl in Hk. simplify_eq. specialize (Hloop _ eq_refl).
  unfold initial. split_and!; try done.
  intros s. specialize (Hloop s).
  repeat match goal with H : _ = dict_comp _ _ |- _ => rewrite H; clear H end.
  rewrite !dict_get_comp. simpl in Hloop.
  destruct (bool_decide (s ∈ services)); by destruct_and!.
Qed.

(** The constructor does not raise when every topic is a member of the
    schema and the clock reading converts to nanoseconds. *)
Lemma init_total simulation monotonic services poll ia iaf iv ns :
  py_int (monotonic * 1e9)%float = Ok ns →
  (∀ s, s ∈ services → is_Some (placeholder schema s)) →
  ∃ self,
    __init__ schema simulation monotonic services poll ia iaf iv = Ok self.
Proof.
  intros Hns Hs. unfold __init__.
  match goal with
  | |- ∃ _, match for_each ?l ?body ?st0 with _ => _ end = _ =>
      destruct (init_loop_total monotonic l st0 ns Hns Hs) as [st' ->]
  end.
  by eexists.
Qed.
End SubMasterInit.

(** ** SubMaster: [update_msgs] does not raise on a well-formed state *)

Section SubMasterTotal.
Context (SERVICE_LIST : dict Service).

Lemma well_formed_ext self self' :
  recv_time self' = recv_time self →
  recv_dts self' = recv_dts self →
  data self' = data self →
  well_formed SERVICE_LIST self → well_formed SERVICE_LIST self'.
Proof.
  unfold well_formed, history_bounded. by intros -> -> ->.
Qed.

Lemma update_service_total cur_time s self :
  well_formed SERVICE_LIST self → s ∈ dict_keys (data self) →
  ∃ self', update_service SERVICE_LIST cur_time s self = (Ok tt, self')
           ∧ well_formed SERVICE_LIST self'
           ∧ data self' = data self.
Proof.
  intros Hwf Hs.
  pose proof (update_service_keeps SERVICE_LIST
                (fun st => (recv_time st, recv_dts st, data st)) cur_time s
                (fun _ _ => eq_refl) (fun _ _ => eq_refl) self) as Hk.
  cut (∃ self', update_service SERVICE_LIST cur_time s self = (Ok tt, self')).
  { intros [self' H']. exists self'. rewrite H' in Hk. simpl in Hk.
    simplify_eq. split_and!; [done| |done]. by eapply well_formed_ext. }
  clear Hk. destruct Hwf as [Hb Hkeys].
  destruct (Hkeys s Hs) as ([svc Hsvc] & [rt Hrt] & [dts Hdts]).
  specialize (Hb s dts Hdts).
  unfold update_service, _check_avg_freq, bind, lift, reads, modify, rbind,
    getitem. simpl. rewrite Hsvc. simpl.
  destruct (1e-5 <? frequency svc)%float eqn:Hf; simpl; [|by eexists].
  rewrite Hrt. simpl.
  unfold py_div at 1. rewrite (gt_threshold_nonzero _ Hf). simpl.
  destruct (1e-5 <? rt)%float; simpl; [|by eexists].
  destruct (negb _ && negb _ && negb _); simpl; [|by eexists].
  rewrite Hdts. simpl.
  destruct (Nat.ltb_spec 0 (length dts)) as [Hlen|Hlen]; simpl; [|by eexists].
  rewrite Hdts. simpl.
  unfold py_div. rewrite float_of_len_nonzero by lia.
  rewrite (gt_threshold_scaled_nonzero _ Hf).
  by eexists.
Qed.

Lemma update_msg_total cur_time msg self :
  well_formed SERVICE_LIST self →
  (∀ m, msg = Some m → Event.which m ∈ dict_keys (data self)) →
  ∃ self', update_msg cur_time msg self = (Ok tt, self')
           ∧ well_formed SERVICE_LIST self'
           ∧ dict_keys (data self') = dict_keys (data self).
Proof.
  intros Hwf Hm. destruct msg as [m|]; [|by exists self].
  specialize (Hm m eq_refl).
  pose proof (update_msg_history_bounded cur_time (Some m) self (proj1 Hwf))
    as Hb'.
  destruct Hwf as [Hb Hkeys].
  destruct (Hkeys _ Hm) as ([svc Hsvc] & [rt Hrt] & [dts Hdts]).
  rewrite (update_msg_Ok cur_time m self dts rt Hdts Hrt) in Hb' |- *.
  eexists. split; [done|]. simpl in *.
  assert (dict_keys (dict_set (Event.which m) (Event.payload m) (data self))
          = dict_keys (data self)) as Hk.
  { apply dict_keys_set. by apply dict_keys_spec. }
  split; [|done]. split; [done|]. simpl. rewrite Hk. intros s Hs.
  destruct (Hkeys s Hs) as (H1 & H2 & H3).
  rewrite !dict_get_set. by destruct (decide (Event.which m = s)).
Qed.

(** The totality of [update_msgs]: on a well-formed state and messages
    for tracked topics it returns, and the state stays well formed. *)
Lemma update_msgs_total cur_time msgs self :
  well_formed SERVICE_LIST self → tracked_messages self msgs →
  ∃ self', update_msgs SERVICE_LIST cur_time msgs self = (Ok tt, self')
           ∧ well_formed SERVICE_LIST self'
           ∧ dict_keys (data self') = dict_keys (data self).
Proof.
  intros Hwf Hmsgs. unfold update_msgs. rewrite !bind_modify.
  set (st0 := set_updated _ _).
  pose (I := fun st => well_formed SERVICE_LIST st
                       ∧ dict_keys (data st) = dict_keys (data self)).
  assert (I st0) as HI0 by done.
  destruct (for_each_total I msgs (update_msg cur_time)) with (st := st0)
    as (mid & Hmid & Hwf1 & Hk1); [|done|].
  { intros msg st Hin [Hw Hk].
    destruct (update_msg_total cur_time msg st Hw) as (st' & ? & ? & Hk').
    - intros m ->. rewrite Hk. by apply Hmsgs.
    - exists st'. split; [done|]. split; [done|]. by rewrite Hk'. }
  unfold bind at 1. rewrite Hmid. unfold bind at 1, get.
  pose (J := fun st => well_formed SERVICE_LIST st ∧ data st = data mid).
  destruct (for_each_total J (dict_keys (data mid))
              (update_service SERVICE_LIST cur_time)) with (st := mid)
    as (self' & Hrun & Hwf2 & Hk2); [|done|].
  { intros s st Hin [Hw Hd].
    destruct (update_service_total cur_time s st Hw) as (st' & ? & ? & Hd').
    - by rewrite Hd.
    - exists st'. split; [done|]. split; [done|]. by rewrite Hd'. }
  exists self'. split; [done|]. split; [done|]. by rewrite Hk2.
Qed.

(** A run of updates with messages for tracked topics keeps the state
    well formed and the tracked topics the same. *)
Lemma run_updates_well_formed ticks self :
  well_formed SERVICE_LIST self →
  Forall (fun tick => tracked_messages self tick.2) ticks →
  well_formed SERVICE_LIST (run_updates SERVICE_LIST ticks self)
  ∧ dict_keys (data (run_updates SERVICE_LIST ticks self))
    = dict_keys (data self).
Proof.
  intros Hwf Hq. revert self Hwf Hq.
  induction ticks as [|tick ticks IH]; intros self Hwf Hq; [done|].
  apply Forall_cons in Hq as [Hq1 Hq].
  destruct (update_msgs_total tick.1 tick.2 self Hwf Hq1)
    as (self1 & H1 & Hwf1 & Hk1).
  unfold run_updates in *. simpl. rewrite H1. simpl.
  destruct (IH self1 Hwf1) as [Hwf' Hk'].
  - eapply Forall_impl; [exact Hq|]. intros t Ht m Hm.
    rewrite Hk1. by apply Ht.
  - split; [done|]. by rewrite Hk'.
Qed.

(** A freshly constructed aggregator is well formed when its topics are
    registered. *)
Lemma initial_well_formed schema simulation services ia iaf iv self :
  initial schema simulation services ia iaf iv self →
  (∀ s, s ∈ services → is_Some (dict_get SERVICE_LIST s)) →
  well_formed SERVICE_LIST self
  ∧ ∀ s, s ∈ dict_keys (data self) ↔ s ∈ services.
Proof.
  intros (_ & _ & _ & _ & Hinit) Hreg.
  assert (∀ s, s ∈ dict_keys (data self) ↔ s ∈ services) as Hkeys.
  { intros s. rewrite dict_keys_spec. specialize (Hinit s).
    destruct (bool_decide_reflect (s ∈ services)) as [Hin|Hnin].
    - destruct Hinit as (_ & _ & _ & _ & _ & _ & (p & _ & ->) & _). by eauto.
    - destruct Hinit as (_ & _ & _ & _ & _ & _ & -> & _).
      split; [by intros [? ?]|done]. }
  split; [|done]. split.
  - intros s dts Hd. specialize (Hinit s).
    destruct (bool_decide (s ∈ services)).
    + destruct Hinit as (_ & _ & _ & _ & _ & Hd' & _).
      rewrite Hd' in Hd. simplify_eq. simpl. lia.
    + destruct Hinit as (_ & _ & _ & _ & _ & Hd' & _). congruence.
  - intros s Hs. apply Hkeys in Hs. specialize (Hinit s).
    rewrite bool_decide_eq_true_2 in Hinit by done.
    destruct Hinit as (_ & -> & _ & _ & _ & -> & _). eauto.
Qed.
End SubMasterTotal.

(** ** SubMaster: topics without a message *)

Section SubMasterQuiet.
Context (SERVICE_LIST : dict Service).

Lemma update_msg_other cur_time msg s :
  (∀ m, msg = Some m → Event.which m ≠ s) →
  keeps (received s) (update_msg cur_time msg).
Proof.
  intros Hm. destruct msg as [m|]; [|apply keeps_ret].
  specialize (Hm m eq_refl). unfold update_msg, received. keeps_tac.
Qed.

Lemma update_msgs_other cur_time msgs s :
  no_message_for s msgs →
  keeps (received s) (update_msgs SERVICE_LIST cur_time msgs).
Proof.
  intros Hm. unfold update_msgs. keeps_flat.
  - apply keeps_for_each_in. intros msg Hin. apply update_msg_other.
    intros m ->. by apply Hm.
  - by apply update_services_keeps.
Qed.

Lemma run_updates_other ticks s self :
  Forall (fun tick => no_message_for s tick.2) ticks →
  received s (run_updates SERVICE_LIST ticks self) = received s self.
Proof.
  intros Hq. revert self.
  induction Hq as [|tick ticks Hm Hq IH]; intros self; [done|].
  unfold run_updates in *. simpl. rewrite IH.
  by apply update_msgs_other.
Qed.

Lemma update_msgs_config cur_time msgs :
  keeps config (update_msgs SERVICE_LIST cur_time msgs).
Proof.
  unfold update_msgs, config. keeps_tac. by apply update_msg_keeps.
Qed.

Lemma run_updates_config ticks self :
  config (run_updates SERVICE_LIST ticks self) = config self.
Proof.
  revert self. induction ticks as [|tick ticks IH]; intros self; [done|].
  unfold run_updates in *. simpl. rewrite IH. apply update_msgs_config.
Qed.
End SubMasterQuiet.

(** ** SubMaster: the tracked topics never change *)

Section SubMasterTracks.
Context (SERVICE_LIST : dict Service).

(** A message either leaves what was received alone (its topic has no
    history or no receive time, and the call raises), or is taken in. *)
Lemma update_msg_cases cur_time msg self :
  (let st' := (update_msg cur_time msg self).2 in
   recv_time st' = recv_time self ∧ recv_dts st' = recv_dts self
   ∧ data st' = data self ∧ valid st' = valid self
   ∧ alive st' = alive self ∧ freq_ok st' = freq_ok self)
  ∨ ∃ m dts rt,
      msg = Some m
      ∧ dict_get (recv_dts self) (Event.which m) = Some dts
      ∧ dict_get (recv_time self) (Event.which m) = Some rt.
Proof.
  destruct msg as [m|]; [|by left].
  destruct (dict_get (recv_dts self) (Event.which m)) as [dts|] eqn:Hd.
  - destruct (dict_get (recv_time self) (Event.which m)) as [rt|] eqn:Hr.
    + right. by exists m, dts, rt.
    + left. unfold update_msg, bind, modify, reads, lift, getitem. simpl.
      by rewrite Hd, Hr.
  - left. unfold update_msg, bind, modify, reads, lift, getitem. simpl.
    by rewrite Hd.
Qed.

Lemma tracks_ext services st st' :
  recv_time st' = recv_time st → recv_dts st' = recv_dts st →
  data st' = data st → valid st' = valid st →
  alive st' = alive st → freq_ok st' = freq_ok st →
  tracks services st → tracks services st'.
Proof. unfold tracks. by intros -> -> -> -> -> ->. Qed.

Lemma update_msg_tracks services cur_time msg :
  preserves (tracks services) (update_msg cur_time msg).
Proof.
  intros self Ht.
  destruct (update_msg_cases cur_time msg self)
    as [(H1 & H2 & H3 & H4 & H5 & H6)|(m & dts & rt & -> & Hd & Hr)].
  { by eapply tracks_ext. }
  rewrite (update_msg_Ok cur_time m self dts rt Hd Hr). simpl.
  assert (Event.which m ∈ services) as Hin.
  { pose proof (Ht (Event.which m)) as Hm.
    destruct (bool_decide_reflect (Event.which m ∈ services)); [done|].
    destruct Hm as (_ & Hd' & _). congruence. }
  intros s. specialize (Ht s). simpl.
  destruct (decide (Event.which m = s)) as [<-|Hne].
  - rewrite bool_decide_eq_true_2 in Ht |- * by done.
    rewrite !dict_get_set_eq. destruct_and!. split_and!; by eauto.
  - by rewrite !dict_get_set_ne.
Qed.

Lemma update_service_tracks services cur_time s :
  s ∈ services →
  preserves (tracks services) (update_service SERVICE_LIST cur_time s).
Proof.
  intros Hs self Ht s'.
  pose proof (update_service_keeps SERVICE_LIST
                (fun st => (recv_time st, recv_dts st, data st, valid st))
                cur_time s (fun _ _ => eq_refl) (fun _ _ => eq_refl) self)
    as Hk.
  simpl in Hk. injection Hk as -> -> -> ->.
  destruct (decide (s = s')) as [<-|Hne].
  - rewrite bool_decide_eq_true_2 by done.
    specialize (Ht s). rewrite bool_decide_eq_true_2 in Ht by done.
    destruct Ht as (? & ? & ? & ? & Ha & Hf).
    pose proof (update_service_flags SERVICE_LIST cur_time s s self
                  (conj Ha Hf)) as [? ?].
    by split_and!.
  - pose proof (update_service_keeps SERVICE_LIST
                  (fun st => (dict_get (alive st) s', dict_get (freq_ok st) s'))
                  cur_time s) as Hk.
    simpl in Hk. specialize (Hk
      (fun v st => ltac:(by rewrite dict_get_set_ne))
      (fun v st => ltac:(by rewrite dict_get_set_ne)) self).
    injection Hk as -> ->. apply Ht.
Qed.

Lemma update_msgs_tracks services cur_time msgs :
  preserves (tracks services) (update_msgs SERVICE_LIST cur_time msgs).
Proof.
  unfold update_msgs. intros self Ht. rewrite !bind_modify.
  set (st0 := set_updated _ _).
  assert (tracks services st0) as Ht0 by done.
  pose proof (preserves_for_each_in (tracks services) msgs
                (update_msg cur_time)
                (fun msg _ => update_msg_tracks services cur_time msg)
                st0 Ht0) as Ht1.
  unfold bind at 1.
  destruct (for_each msgs (update_msg cur_time) st0) as [[[]|e] mid];
    simpl in *; [|done].
  unfold bind, get.
  apply preserves_for_each_in; [|done].
  intros s Hs. apply update_service_tracks.
  apply dict_keys_spec in Hs. specialize (Ht1 s).
  destruct (bool_decide_reflect (s ∈ services)); [done|].
  destruct Ht1 as (_ & _ & Hd & _). rewrite Hd in Hs. by destruct Hs.
Qed.

Lemma run_updates_tracks services ticks self :
  tracks services self →
  tracks services (run_updates SERVICE_LIST ticks self).
Proof.
  revert self. induction ticks as [|tick ticks IH]; intros self Ht; [done|].
  apply IH. by apply update_msgs_tracks.
Qed.

Lemma initial_tracks schema simulation services ia iaf iv self :
  initial schema simulation services ia iaf iv self →
  tracks services self.
Proof.
  intros (_ & _ & _ & _ & Hinit) s. specialize (Hinit s).
  destruct (bool_decide (s ∈ services)).
  - destruct Hinit as (_ & -> & _ & -> & -> & -> & (p & _ & ->) & -> & _).
    by split_and!.
  - by destruct Hinit as (_ & -> & _ & -> & -> & -> & -> & -> & _).
Qed.

Lemma tracks_data_keys services st s :
  tracks services st → s ∈ dict_keys (data st) ↔ s ∈ services.
Proof.
  intros Ht. specialize (Ht s). rewrite dict_keys_spec.
  destruct (bool_decide_reflect (s ∈ services)) as [Hin|Hnin].
  - by destruct Ht as (_ & _ & ? & _).
  - destruct Ht as (_ & _ & -> & _). split; [by intros [? ?]|done].
Qed.

Lemma tracks_alive_keys services st s :
  tracks services st → s ∈ dict_keys (alive st) ↔ s ∈ services.
Proof.
  intros Ht. specialize (Ht s). rewrite dict_keys_spec.
  destruct (bool_decide_reflect (s ∈ services)) as [Hin|Hnin].
  - by destruct Ht as (_ & _ & _ & _ & ? & _).
  - destruct Ht as (_ & _ & _ & _ & -> & _). split; [by intros [? ?]|done].
Qed.
End SubMasterTracks.

(** ** The aggregate predicates *)

Section Aggregates.
Context (SERVICE_LIST : dict Service).

(** A conjunction over topics that are all filtered out, or all true, is
    true. *)
Lemma py_all_true keep d l :
  (∀ s, s ∈ l →
     keep s = Ok false ∨ (keep s = Ok true ∧ dict_get d s = Some true)) →
  py_all keep d l = Ok true.
Proof.
  induction l as [|s l IH]; intros H; simpl; [done|].
  destruct (H s) as [->|[-> Hd]]; [by left| |]; simpl.
  - apply IH. intros s' Hs'. apply H. by right.
  - unfold getitem. rewrite Hd. simpl.
    apply IH. intros s' Hs'. apply H. by right.
Qed.

(** The conjunction only reads the topics its filter keeps. *)
Lemma py_all_ext keep keep' d d' l :
  (∀ s, s ∈ l → keep' s = keep s) →
  (∀ s, s ∈ l → keep s = Ok true → dict_get d' s = dict_get d s) →
  py_all keep' d' l = py_all keep d l.
Proof.
  induction l as [|s l IH]; intros Hk Hd; simpl; [done|].
  rewrite Hk by (by left).
  rewrite IH by (intros; first [apply Hk | apply Hd]; by try right).
  destruct (keep s) as [[]|e] eqn:Hs; simpl; try done.
  unfold getitem. by rewrite Hd by (by try left).
Qed.

(** A filtered-out topic at the end of the list changes nothing. *)
Lemma py_all_snoc_skip keep d l s :
  keep s = Ok false → py_all keep d (l ++ [s]) = py_all keep d l.
Proof.
  intros Hs. induction l as [|x l IH]; simpl.
  - by rewrite Hs.
  - rewrite IH. done.
Qed.

Lemma dict_keys_set_new {V} (d : dict V) k v :
  dict_get d k = None → dict_keys (dict_set k v d) = dict_keys d ++ [k].
Proof.
  unfold dict_keys. induction d as [|[k' v'] d IH]; simpl; [done|].
  destruct (decide (k' = k)); [done|]. simpl. intros H. by rewrite IH.
Qed.

(** [py_all] over the keys of a dictionary after an assignment to a
    filtered-out topic. *)
Lemma py_all_keys_set {V} keep d (a : dict V) s v :
  keep s = Ok false →
  py_all keep d (dict_keys (dict_set s v a)) = py_all keep d (dict_keys a).
Proof.
  intros Hs. destruct (dict_get a s) as [x|] eqn:Ha.
  - by rewrite dict_keys_set.
  - by rewrite dict_keys_set_new, py_all_snoc_skip.
Qed.

(** A topic on the rate-ignore list never passes the filter of
    [all_freq_ok]. *)
Lemma check_avg_freq_ignored self s :
  s ∈ ignore_average_freq self →
  _check_avg_freq SERVICE_LIST self s ≠ Ok true.
Proof.
  intros Hs. unfold _check_avg_freq, rbind.
  destruct (getitem (recv_time self) s) as [rt|e]; [|done].
  destruct (negb _); [done|].
  destruct (getitem SERVICE_LIST s) as [svc|e]; [|done].
  destruct (negb _); [done|].
  unfold py_in at 2. rewrite (bool_decide_eq_true_2 _ Hs).
  by rewrite andb_false_r.
Qed.

(** With every lookup in place, such a topic is filtered out. *)
Lemma check_avg_freq_ignored_Ok self s :
  s ∈ ignore_average_freq self →
  is_Some (dict_get (recv_time self) s) →
  is_Some (dict_get SERVICE_LIST s) →
  _check_avg_freq SERVICE_LIST self s = Ok false.
Proof.
  intros Hs [rt Hrt] [svc Hsvc]. unfold _check_avg_freq, rbind, getitem.
  rewrite Hrt, Hsvc.
  destruct (negb _); [done|]. destruct (negb _); [done|].
  unfold py_in at 2. rewrite (bool_decide_eq_true_2 _ Hs).
  by rewrite andb_false_r.
Qed.
End Aggregates.

(** * The claims *)

Section Claims.
Context (SERVICE_LIST : dict Service).
Local Open Scope float_scope.

(** C8, as the code has it: an [update_msgs] at time [cur_time] on a
    well-formed aggregator, with messages for tracked topics, returns,
    and then every tracked topic whose expected frequency [f] is above
    the [1e-5] guard has [alive = (cur_time - recv_time) < 10 / f], and
    every other tracked topic (so one with [0 < f <= 1e-5]) is alive.  In
    particular a 20 Hz topic that has received no message since
    construction is alive on the updates whose clock reading is below
    [0.5] and not alive on those at [0.5] or later. *)
Theorem alive_threshold :
  (∀ cur_time msgs self,
     well_formed SERVICE_LIST self →
     tracked_messages self msgs →
     ∃ self',
       update_msgs SERVICE_LIST cur_time msgs self = (Ok tt, self')
       ∧ ∀ s svc,
           s ∈ dict_keys (data self') →
           dict_get SERVICE_LIST s = Some svc →
           if 1e-5 <? frequency svc then
             ∃ rt,
               dict_get (recv_time self') s = Some rt
               ∧ dict_get (alive self') s
                 = Some (cur_time - rt <? 10.0 / frequency svc)
           else dict_get (alive self') s = Some true)
  ∧ (∀ schema simulation monotonic services poll ia iaf iv self0
       ticks cur_time msgs s svc,
     __init__ schema simulation monotonic services poll ia iaf iv = Ok self0 →
     (∀ s', s' ∈ services → is_Some (dict_get SERVICE_LIST s')) →
     s ∈ services →
     dict_get SERVICE_LIST s = Some svc →
     frequency svc = 20.0 →
     Forall (fun tick => no_message_for s tick.2
                         ∧ tracked_messages self0 tick.2) ticks →
     no_message_for s msgs →
     tracked_messages self0 msgs →
     ∃ self',
       update_msgs SERVICE_LIST cur_time msgs
         (run_updates SERVICE_LIST ticks self0) = (Ok tt, self')
       ∧ dict_get (alive self') s = Some (cur_time <? 0.5)
       ∧ ((cur_time <? 0.5) = true → dict_get (alive self') s = Some true)
       ∧ ((0.5 <=? cur_time) = true →
          dict_get (alive self') s = Some false)).
Proof.
  assert (∀ cur_time msgs self self' s svc,
     update_msgs SERVICE_LIST cur_time msgs self = (Ok tt, self') →
     s ∈ dict_keys (data self') →
     dict_get SERVICE_LIST s = Some svc →
     if 1e-5 <? frequency svc then
       ∃ rt,
         dict_get (recv_time self') s = Some rt
         ∧ dict_get (alive self') s
           = Some (cur_time - rt <? 10.0 / frequency svc)
     else dict_get (alive self') s = Some true) as Hgen.
  { intros cur_time msgs self self' s svc Hrun Hs Hsvc.
    destruct (update_msgs_Ok _ _ _ _ _ Hrun s Hs)
      as (al & fo & Hal & _ & svc' & Hsvc' & Hh).
    simplify_eq. destruct (1e-5 <? frequency svc).
    - destruct Hh as (rt & Hrt & -> & _). by exists rt.
    - by destruct Hh as [-> _]. }
  split.
  { intros cur_time msgs self Hwf Hmsgs.
    destruct (update_msgs_total SERVICE_LIST cur_time msgs self Hwf Hmsgs)
      as (self' & Hrun & _).
    exists self'. split; [done|]. intros s svc Hs Hsvc.
    by apply (Hgen cur_time msgs self self' s svc). }
  intros schema simulation monotonic services poll ia iaf iv self0
    ticks cur_time msgs s svc Hinit Hreg Hs Hsvc Hf Hquiet Hmsgs Htr.
  apply init_initial in Hinit as Hini.
  destruct (initial_well_formed SERVICE_LIST _ _ _ _ _ _ _ Hini Hreg)
    as [Hwf0 Hkeys0].
  destruct (run_updates_well_formed SERVICE_LIST ticks self0 Hwf0)
    as [Hwf Hkeys].
  { eapply Forall_impl; [exact Hquiet|]. by intros tick [_ ?]. }
  destruct (update_msgs_total SERVICE_LIST cur_time msgs
              (run_updates SERVICE_LIST ticks self0) Hwf)
    as (self' & Hrun & _).
  { intros m Hm. rewrite Hkeys. by apply Htr. }
  exists self'. split; [done|].
  destruct Hini as (_ & _ & _ & _ & Hinit0).
  specialize (Hinit0 s). rewrite bool_decide_eq_true_2 in Hinit0 by done.
  destruct Hinit0 as (_ & Hrt0 & _ & _ & _ & _ & (p & _ & Hdata0) & _).
  assert (Forall (fun tick => no_message_for s tick.2) ticks) as Hq.
  { eapply Forall_impl; [exact Hquiet|]. by intros tick [? _]. }
  pose proof (run_updates_other SERVICE_LIST ticks s self0 Hq) as Hk1.
  pose proof (update_msgs_other SERVICE_LIST cur_time msgs s Hmsgs
                (run_updates SERVICE_LIST ticks self0)) as Hk2.
  rewrite Hrun in Hk2. simpl in Hk2. rewrite Hk1 in Hk2.
  unfold received in Hk2. rewrite Hrt0, Hdata0 in Hk2.
  injection Hk2 as Hrt _ _ Hdata _ _.
  pose proof (Hgen cur_time msgs _ self' s svc Hrun) as Hal.
  rewrite Hf in Hal. change (1e-5 <? 20.0) with true in Hal.
  destruct Hal as (rt & Hrt' & Hal).
  - apply dict_keys_spec. rewrite Hdata. by eexists.
  - done.
  - rewrite Hrt in Hrt'. injection Hrt' as <-.
    rewrite sub_zero_r in Hal.
    change (10.0 / 20.0) with 0.5 in Hal.
    split; [done|]. split.
    + intros Hlt. by rewrite Hal, Hlt.
    + intros Hge. by rewrite Hal, (leb_ltb_false _ _ Hge).
Qed.

(** C3, as the code has it: an [update_msgs] on a well-formed
    aggregator, with messages for tracked topics, returns, and then for
    every tracked topic whose expected frequency [f] is above the
    [1e-5] guard, the average-rate check applies exactly when
    [recv_time > 1e-5], [f > 1e-5], the topic is polled and it is in
    neither the rate-ignore nor the alive-ignore list; when it applies
    [freq_ok] is [mean(history) < 1 / (0.9 * f)] for a non-empty history
    and false for an empty one, and when it does not [freq_ok] is
    true.  For every other tracked topic (so one with [0 < f <= 1e-5])
    the check does not apply and [freq_ok] is true. *)
Theorem avg_freq_check cur_time msgs self :
  well_formed SERVICE_LIST self →
  tracked_messages self msgs →
  ∃ self',
    update_msgs SERVICE_LIST cur_time msgs self = (Ok tt, self')
    ∧ ∀ s svc,
        s ∈ dict_keys (data self') →
        dict_get SERVICE_LIST s = Some svc →
        if 1e-5 <? frequency svc then
          ∃ rt fo,
            dict_get (recv_time self') s = Some rt
            ∧ dict_get (freq_ok self') s = Some fo
            ∧ let applies :=
                (1e-5 <? rt) && (1e-5 <? frequency svc)
                && negb (py_in s (non_polled_services self'))
                && negb (py_in s (ignore_average_freq self'))
                && negb (py_in s (ignore_alive self')) in
              _check_avg_freq SERVICE_LIST self' s = Ok applies
              ∧ if applies then
                  ∃ dts,
                    dict_get (recv_dts self') s = Some dts
                    ∧ fo = match dts with
                           | [] => false
                           | _ :: _ => mean dts <? 1 / (0.9 * frequency svc)
                           end
                else fo = true
        else
          _check_avg_freq SERVICE_LIST self' s = Ok false
          ∧ dict_get (freq_ok self') s = Some true.
Proof.
  intros Hwf Hmsgs.
  destruct (update_msgs_total SERVICE_LIST cur_time msgs self Hwf Hmsgs)
    as (self' & Hrun & Hwf').
  exists self'. split; [done|]. intros s svc Hs Hsvc.
  destruct (update_msgs_Ok _ _ _ _ _ Hrun s Hs)
    as (al & fo & _ & Hfo & svc' & Hsvc' & Hh).
  simplify_eq. destruct (1e-5 <? frequency svc) eqn:Hf; cycle 1.
  { destruct Hh as [_ ->]. split; [|done].
    destruct Hwf' as [[_ Hkeys] _].
    destruct (Hkeys s Hs) as (_ & [rt Hrt] & _).
    unfold _check_avg_freq, rbind, getitem. rewrite Hrt, Hsvc, Hf.
    by destruct (1e-5 <? rt). }
  destruct Hh as (rt & Hrt & _ & chk & Hchk & Hfo').
  exists rt, fo. split; [done|]. split; [done|]. simpl.
  assert (chk = (1e-5 <? rt) && true
                && negb (py_in s (non_polled_services self'))
                && negb (py_in s (ignore_average_freq self'))
                && negb (py_in s (ignore_alive self'))) as ->.
  { revert Hchk. unfold _check_avg_freq, rbind, getitem.
    rewrite Hrt, Hsvc, Hf. simpl.
    destruct (1e-5 <? rt); simpl; congruence. }
  split; [done|].
  by rewrite (float_mul_comm 0.9 (frequency svc)).
Qed.

(** C1, as the code has it: with the simulation override set at
    construction and the topics registered, the first [update_msgs]
    (with or without messages) returns, and then every tracked topic
    has [freq_ok = true] and is left out of [all_alive], so
    [all_alive()] and [all_freq_ok()] are true; its per-topic [alive]
    flag is computed as for any topic:
    [(cur_time - recv_time) < 10 / f] when [f > 1e-5], and true
    otherwise.  With no message received, [recv_time] is still [0.]. *)
Theorem simulation_override schema monotonic services poll ia iaf iv self
    cur_time msgs :
  __init__ schema true monotonic services poll ia iaf iv = Ok self →
  (∀ s, s ∈ services → is_Some (dict_get SERVICE_LIST s)) →
  (∀ m, Some m ∈ msgs → Event.which m ∈ services) →
  ∃ self',
    update_msgs SERVICE_LIST cur_time msgs self = (Ok tt, self')
    ∧ (∀ s, s ∈ services →
         dict_get (freq_ok self') s = Some true
         ∧ ∃ svc,
             dict_get SERVICE_LIST s = Some svc
             ∧ if 1e-5 <? frequency svc then
                 ∃ rt,
                   dict_get (recv_time self') s = Some rt
                   ∧ dict_get (alive self') s
                     = Some (cur_time - rt <? 10.0 / frequency svc)
               else dict_get (alive self') s = Some true)
    ∧ all_alive self' None = Ok true
    ∧ all_freq_ok SERVICE_LIST self' None = Ok true
    ∧ (Forall (eq None) msgs →
       ∀ s, s ∈ services → dict_get (recv_time self') s = Some 0).
Proof.
  intros Hinit Hreg Hmsgs.
  apply init_initial in Hinit as Hini.
  pose proof (initial_tracks _ _ _ _ _ _ _ Hini) as Ht.
  destruct (initial_well_formed SERVICE_LIST _ _ _ _ _ _ _ Hini Hreg)
    as [Hwf Hkeys].
  destruct (update_msgs_total SERVICE_LIST cur_time msgs self Hwf)
    as (self' & Hrun & _).
  { intros m Hm. by apply Hkeys, Hmsgs. }
  exists self'. split; [done|].
  pose proof (update_msgs_tracks SERVICE_LIST services cur_time msgs self Ht)
    as Ht'.
  pose proof (update_msgs_config SERVICE_LIST cur_time msgs self) as Hc.
  rewrite Hrun in Ht', Hc. simpl in Ht', Hc.
  destruct Hini as (_ & Hiaf & Hia & _ & Hinit0).
  unfold config in Hc. injection Hc as _ Hiaf' Hia' _.
  rewrite Hiaf in Hiaf'. rewrite Hia in Hia'.
  assert (∀ s, s ∈ services →
     dict_get (freq_ok self') s = Some true
     ∧ ∃ svc,
         dict_get SERVICE_LIST s = Some svc
         ∧ if 1e-5 <? frequency svc then
             ∃ rt,
               dict_get (recv_time self') s = Some rt
               ∧ dict_get (alive self') s
                 = Some (cur_time - rt <? 10.0 / frequency svc)
           else dict_get (alive self') s = Some true) as Hflags.
  { intros s Hs.
    destruct (update_msgs_Ok _ _ _ _ _ Hrun s)
      as (al & fo & Hal & Hfo & svc & Hsvc & Hh).
    { by apply (tracks_data_keys services). }
    assert (s ∈ ignore_average_freq self') as Hign by (by rewrite Hiaf').
    pose proof (check_avg_freq_ignored SERVICE_LIST self' s Hign) as Hno.
    destruct (1e-5 <? frequency svc) eqn:Hf.
    - destruct Hh as (rt & Hrt & -> & chk & Hchk & Hfo').
      destruct chk; [done|]. subst fo.
      split; [done|]. exists svc. rewrite Hf. by eauto.
    - destruct Hh as [-> ->]. split; [done|]. exists svc. by rewrite Hf. }
  split; [done|]. split; [|split].
  - unfold all_alive. simpl. apply py_all_true. intros s Hs. left.
    apply (tracks_alive_keys services) in Hs; [|done].
    unfold py_in. by rewrite Hia', bool_decide_eq_true_2.
  - unfold all_freq_ok. simpl. apply py_all_true. intros s Hs. left.
    apply (tracks_alive_keys services) in Hs; [|done].
    destruct (Hflags s Hs) as (_ & svc & Hsvc & _).
    apply check_avg_freq_ignored_Ok; [by rewrite Hiaf'| |by eauto].
    specialize (Ht' s). rewrite bool_decide_eq_true_2 in Ht' by done.
    by destruct Ht' as (? & _).
  - intros Hnone s Hs.
    assert (no_message_for s msgs) as Hq.
    { intros m Hm. rewrite Forall_forall in Hnone.
      by specialize (Hnone _ Hm). }
    pose proof (update_msgs_other SERVICE_LIST cur_time msgs s Hq self) as Hk.
    rewrite Hrun in Hk. simpl in Hk. injection Hk as -> _ _ _ _ _.
    specialize (Hinit0 s). rewrite bool_decide_eq_true_2 in Hinit0 by done.
    by destruct Hinit0 as (_ & ? & _).
Qed.

(** C2, as the code has it: a topic on the alive-ignore list is left out
    of the conjunction of [all_alive] (whatever its [alive] flag holds,
    the result is the same), a topic on the rate-ignore list out of that
    of [all_freq_ok], and a topic on the validity-ignore list out of
    that of [all_valid]; the lists stay as constructed along any run of
    updates.  The per-topic [alive] flag of an alive-ignored topic is
    computed as for any other topic. *)
Theorem ignore_lists_exclude self s :
  (s ∈ ignore_alive self →
   ∀ v service_list,
     all_alive (set_alive (dict_set s v (alive self)) self) service_list
     = all_alive self service_list)
  ∧ (s ∈ ignore_average_freq self →
     ∀ v service_list,
       all_freq_ok SERVICE_LIST
         (set_freq_ok (dict_set s v (freq_ok self)) self) service_list
       = all_freq_ok SERVICE_LIST self service_list)
  ∧ (s ∈ ignore_valid self →
     ∀ v service_list,
       all_valid (set_valid (dict_set s v (valid self)) self) service_list
       = all_valid self service_list)
  ∧ (∀ ticks,
       config (run_updates SERVICE_LIST ticks self) = config self)
  ∧ (s ∈ ignore_alive self →
     ∀ cur_time msgs self' svc,
       update_msgs SERVICE_LIST cur_time msgs self = (Ok tt, self') →
       s ∈ dict_keys (data self') →
       dict_get SERVICE_LIST s = Some svc →
       (1e-5 <? frequency svc) = true →
       ∃ rt,
         dict_get (recv_time self') s = Some rt
         ∧ dict_get (alive self') s
           = Some (cur_time - rt <? 10.0 / frequency svc)).
Proof.
  split_and!.
  - intros Hs v service_list. unfold all_alive. simpl.
    assert (Ok (negb (py_in s (ignore_alive self))) = Ok false) as Hskip.
    { unfold py_in. by rewrite bool_decide_eq_true_2. }
    transitivity (py_all (fun s0 => Ok (negb (py_in s0 (ignore_alive self))))
                    (alive self)
                    (default (dict_keys (dict_set s v (alive self)))
                       service_list)).
    + apply py_all_ext; [done|]. intros s' _ Hk.
      apply dict_get_set_ne. intros <-. rewrite Hskip in Hk. done.
    + destruct service_list as [l|]; [done|]. simpl.
      by apply (py_all_keys_set
                  (fun s0 => Ok (negb (py_in s0 (ignore_alive self))))).
  - intros Hs v service_list. unfold all_freq_ok. simpl.
    apply py_all_ext; [done|]. intros s' _ Hk.
    apply dict_get_set_ne. intros <-.
    by apply (check_avg_freq_ignored SERVICE_LIST self s).
  - intros Hs v service_list. unfold all_valid. simpl.
    apply py_all_ext; [done|]. intros s' _ Hk.
    apply dict_get_set_ne. intros <-.
    unfold py_in in Hk. by rewrite bool_decide_eq_true_2 in Hk.
  - intros ticks. apply run_updates_config.
  - intros _ cur_time msgs self' svc Hrun Hs Hsvc Hf.
    destruct (update_msgs_Ok _ _ _ _ _ Hrun s Hs)
      as (al & fo & Hal & _ & svc' & Hsvc' & Hh).
    simplify_eq. rewrite Hf in Hh. destruct Hh as (rt & Hrt & -> & _).
    by exists rt.
Qed.

(** C9: straight after construction every tracked topic has
    [valid = True], although a fresh envelope has [valid = False]; so
    [all_valid] is true, and stays true over any topics that have not
    received a message since, where the validity conjunct of
    [all_checks] is then no obstacle. *)
Theorem valid_before_first_message schema simulation monotonic services
    poll ia iaf iv self :
  __init__ schema simulation monotonic services poll ia iaf iv = Ok self →
  (∀ s, s ∈ services → dict_get (valid self) s = Some true)
  ∧ all_valid self None = Ok true
  ∧ (∀ ticks l,
       (∀ s, s ∈ l → s ∈ services) →
       Forall (fun tick => ∀ s, s ∈ l → no_message_for s tick.2) ticks →
       let self' := run_updates SERVICE_LIST ticks self in
       (∀ s, s ∈ l → dict_get (valid self') s = Some true)
       ∧ all_valid self' (Some l) = Ok true
       ∧ (all_alive self' (Some l) = Ok true →
          all_freq_ok SERVICE_LIST self' (Some l) = Ok true →
          all_checks SERVICE_LIST self' (Some l) = Ok true))
  ∧ (∀ s size ev,
       new_message schema monotonic (Some s) size no_kwargs = Ok ev →
       Event.valid ev = false).
Proof.
  intros Hinit. apply init_initial in Hinit as Hini.
  pose proof (initial_tracks _ _ _ _ _ _ _ Hini) as Ht.
  destruct Hini as (_ & _ & _ & _ & Hinit0).
  assert (∀ s, s ∈ services → dict_get (valid self) s = Some true) as Hv.
  { intros s Hs. specialize (Hinit0 s).
    rewrite bool_decide_eq_true_2 in Hinit0 by done.
    by destruct Hinit0 as (_ & _ & _ & _ & _ & _ & _ & ? & _). }
  assert (∀ st l, (∀ s, s ∈ l → dict_get (valid st) s = Some true) →
                  all_valid st (Some l) = Ok true) as Hall.
  { intros st l Hl. unfold all_valid. simpl. apply py_all_true.
    intros s Hs. destruct (negb _); [right|left]; by auto. }
  split_and!.
  - done.
  - unfold all_valid. simpl. apply py_all_true. intros s Hs.
    apply (tracks_alive_keys services) in Hs; [|done].
    destruct (negb _); [right|left]; by auto.
  - intros ticks l Hl Hq self'.
    assert (∀ s, s ∈ l → dict_get (valid self') s = Some true) as Hv'.
    { intros s Hs.
      assert (Forall (fun tick => no_message_for s tick.2) ticks) as Hqs.
      { eapply Forall_impl; [exact Hq|]. intros tick H. by apply H. }
      pose proof (run_updates_other SERVICE_LIST ticks s self Hqs) as Hk.
      unfold received in Hk. injection Hk as _ _ _ _ Hk _.
      subst self'. rewrite Hk. by apply Hv, Hl. }
    split; [done|]. split; [by apply Hall|].
    intros Ha Hf. unfold all_checks, rbind. rewrite Ha, Hf. simpl.
    by apply Hall.
  - intros s size ev. unfold new_message, capnp_init, rbind.
    destruct (py_int _); [|done]. simpl.
    destruct size, (dict_get schema s) as [[]|]; intros; by simplify_eq.
Qed.

(** C7: along any run of updates from construction no topic's history
    holds more than 100 intervals, and a message for a topic whose
    history holds 100 drops the oldest of them to append the new one. *)
Theorem history_bound schema simulation monotonic services poll ia iaf iv
    self :
  __init__ schema simulation monotonic services poll ia iaf iv = Ok self →
  (∀ ticks s dts,
     dict_get (recv_dts (run_updates SERVICE_LIST ticks self)) s = Some dts →
     (length dts ≤ 100)%nat)
  ∧ (∀ st cur_time m oldest dts rt,
       dict_get (recv_dts st) (Event.which m) = Some (oldest :: dts) →
       length (oldest :: dts) = 100%nat →
       dict_get (recv_time st) (Event.which m) = Some rt →
       dict_get (recv_dts (update_msg cur_time (Some m) st).2) (Event.which m)
       = Some (dts ++ [cur_time - rt])).
Proof.
  intros Hinit. apply init_initial in Hinit as (_ & _ & _ & _ & Hinit0).
  split.
  - intros ticks. apply (run_updates_history_bounded SERVICE_LIST).
    intros s dts Hd. specialize (Hinit0 s).
    destruct (bool_decide (s ∈ services)).
    + destruct Hinit0 as (_ & _ & _ & _ & _ & Hd' & _).
      rewrite Hd' in Hd. simplify_eq. simpl. lia.
    + destruct Hinit0 as (_ & _ & _ & _ & _ & Hd' & _). congruence.
  - intros st cur_time m oldest dts rt Hd Hlen Hr.
    rewrite (update_msg_Ok cur_time m st _ rt Hd Hr). simpl.
    rewrite dict_get_set_eq.
    by rewrite deque_append_full by (done || (unfold AVG_FREQ_HISTORY; lia)).
Qed.

(** C5, as the code has it: [new_message] for a topic whose payload is
    a list, called without a size, passes no size on and raises
    [KjException]; called with the size [0] it builds the envelope with
    an empty list.  The constructor catches the exception and retries
    with [0], so construction returns, with an empty list as the
    topic's placeholder. *)
Theorem variable_length_placeholder schema monotonic ns s :
  py_int (monotonic * 1e9) = Ok ns →
  dict_get schema s = Some ListField →
  new_message schema monotonic (Some s) None no_kwargs = Raise KjException
  ∧ new_message schema monotonic (Some s) (Some 0%nat) no_kwargs
    = Ok (Event.mk false ns s (PList s 0))
  ∧ (∀ simulation services poll ia iaf iv,
       s ∈ services →
       (∀ s', s' ∈ services → is_Some (dict_get schema s')) →
       ∃ self,
         __init__ schema simulation monotonic services poll ia iaf iv = Ok self
         ∧ dict_get (data self) s = Some (PList s 0)).
Proof.
  intros Hns Hs. split_and!.
  - unfold new_message, capnp_init, rbind. by rewrite Hns, Hs.
  - unfold new_message, capnp_init, rbind. by rewrite Hns, Hs.
  - intros simulation services poll ia iaf iv Hin Hall.
    destruct (init_total schema simulation monotonic services poll ia iaf iv
                ns Hns) as [self Hself].
    { intros s' Hs'. destruct (Hall s' Hs') as [[] Hk];
        unfold placeholder; rewrite Hk; by eexists. }
    exists self. split; [done|].
    apply init_initial in Hself as (_ & _ & _ & _ & Hinit0).
    specialize (Hinit0 s). rewrite bool_decide_eq_true_2 in Hinit0 by done.
    destruct Hinit0 as (_ & _ & _ & _ & _ & _ & (p & Hp & ->) & _).
    unfold placeholder in Hp. rewrite Hs in Hp. by simplify_eq.
Qed.
End Claims.

(** ** PubMaster *)

Section PubMasterClaims.
Context {World : Type}
        (all_readers_updated : string → World → bool)
        (sleep : float → M World unit)
        (slept : float → World → World).

Lemma sleeps_succ_r dt k w :
  sleeps slept dt (S k) w = sleeps slept dt k (slept dt w).
Proof. unfold sleeps. apply Nat.iter_succ_r. Qed.

(** While [time.sleep(dt)] returns, the polling loop returns at the
    first poll that finds the predicate true, and gives up after its
    last sleep. *)
Lemma wait_loop_spec self s sk dt n :
  dict_get (PubMaster.sock self) s = Some sk →
  (∀ w, sleep dt w = (Ok tt, slept dt w)) →
  ∀ w,
    (∀ k, (k < n)%nat →
       all_readers_updated sk (sleeps slept dt k w) = true →
       (∀ j, (j < k)%nat →
          all_readers_updated sk (sleeps slept dt j w) = false) →
       PubMaster.wait_loop all_readers_updated sleep self s dt n w
       = (Ok true, sleeps slept dt k w))
    ∧ ((∀ j, (j < n)%nat →
          all_readers_updated sk (sleeps slept dt j w) = false) →
       PubMaster.wait_loop all_readers_updated sleep self s dt n w
       = (Ok false, sleeps slept dt n w)).
Proof.
  intros Hsk Hsleep. induction n as [|n IH]; intros w.
  - split; [intros k Hk; lia | done].
  - cbn [PubMaster.wait_loop]. unfold bind, lift, get, getitem.
    rewrite Hsk. cbn [fst snd]. split.
    + intros k Hk Hready Hbefore.
      destruct (all_readers_updated sk w) eqn:Hw.
      * destruct k as [|k]; [done|].
        specialize (Hbefore 0%nat ltac:(lia)). unfold sleeps in Hbefore.
        simpl in Hbefore. congruence.
      * destruct k as [|k].
        { unfold sleeps in Hready. simpl in Hready. congruence. }
        rewrite Hsleep, sleeps_succ_r.
        apply (IH (slept dt w)); [lia|by rewrite <- sleeps_succ_r|].
        intros j Hj. rewrite <- sleeps_succ_r. apply Hbefore. lia.
    + intros Hnever.
      rewrite (Hnever 0%nat ltac:(lia) : all_readers_updated sk w = false).
      rewrite Hsleep, sleeps_succ_r.
      apply (IH (slept dt w)).
      intros j Hj. rewrite <- sleeps_succ_r. apply Hnever. lia.
Qed.

(** C4, as the code has it: [wait_for_readers_to_update] polls the
    predicate [n = int(timeout * (1. / dt))] times, sleeping [dt] after
    each poll that finds it false.  While [time.sleep(dt)] returns, it
    returns true at the first poll that finds the predicate true, after
    as many sleeps as polls found it false; and when none of the [n]
    polls finds it true it returns false after [n] sleeps.  When the
    first poll finds the predicate false and [time.sleep(dt)] raises (it
    does on a negative [dt]), the call raises that exception. *)
Theorem wait_for_readers self s sk timeout dt inv n w :
  dict_get (PubMaster.sock self) s = Some sk →
  py_div 1 dt = Ok inv →
  py_int (float_of_Z timeout * inv)%float = Ok n →
  ((∀ w', sleep dt w' = (Ok tt, slept dt w')) →
   (∀ k, (k < Z.to_nat n)%nat →
      all_readers_updated sk (sleeps slept dt k w) = true →
      (∀ j, (j < k)%nat →
         all_readers_updated sk (sleeps slept dt j w) = false) →
      PubMaster.wait_for_readers_to_update all_readers_updated sleep
        self s timeout dt w
      = (Ok true, sleeps slept dt k w))
   ∧ ((∀ j, (j < Z.to_nat n)%nat →
         all_readers_updated sk (sleeps slept dt j w) = false) →
      PubMaster.wait_for_readers_to_update all_readers_updated sleep
        self s timeout dt w
      = (Ok false, sleeps slept dt (Z.to_nat n) w)))
  ∧ (∀ e w',
       0 < n →
       all_readers_updated sk w = false →
       sleep dt w = (Raise e, w') →
       PubMaster.wait_for_readers_to_update all_readers_updated sleep
         self s timeout dt w
       = (Raise e, w')).
Proof.
  intros Hsk Hinv Hn.
  unfold PubMaster.wait_for_readers_to_update, bind, lift.
  rewrite Hinv, Hn. split.
  - intros Hsleep. by apply wait_loop_spec.
  - intros e w' Hpos Hw Hraise.
    destruct (Z.to_nat n) as [|k] eqn:Hk; [lia|].
    cbn [PubMaster.wait_loop]. unfold bind, lift, get, getitem.
    rewrite Hsk. cbn [fst snd]. by rewrite Hw, Hraise.
Qed.
End PubMasterClaims.

(** ** Draining a socket *)

Section DrainClaims.
Context {SubSocket : Type}
        (receive : bool → SubSocket → option bytes * SubSocket)
        (log_from_bytes : bytes → result Event.t).

(** C10: with [wait_for_one] set, when the first (blocking) receive
    yields the absent value, [drain_sock_raw] and [drain_sock] return
    the empty list. *)
Theorem drain_wait_for_one_empty fuel sock sock' :
  receive false sock = (None, sock') →
  drain_sock_raw receive (S fuel) sock true = Some ([], sock')
  ∧ drain_sock receive log_from_bytes (S fuel) sock true
    = Some (Ok [], sock').
Proof.
  intros Hrecv. unfold drain_sock_raw, drain_sock. simpl.
  by rewrite Hrecv.
Qed.
End DrainClaims.

(** * The claims on concrete runs *)

Section Examples.
Local Open Scope float_scope.

Ltac quiet :=
  let m := fresh "m" in
  let Hm := fresh "Hm" in
  intros m Hm; simpl in Hm;
  repeat (apply elem_of_cons in Hm as [Hm|Hm];
          [first [discriminate | injection Hm as ->; vm_compute; discriminate]|]);
  by apply elem_of_nil in Hm.

Ltac member :=
  vm_compute; repeat first [apply list_elem_of_here | apply list_elem_of_further].

Ltac tracked :=
  let m := fresh "m" in
  let Hm := fresh "Hm" in
  intros m Hm; simpl in Hm;
  repeat (apply elem_of_cons in Hm as [Hm|Hm];
          [first [discriminate | injection Hm as ->; member]|]);
  by apply elem_of_nil in Hm.

Ltac registered :=
  let s := fresh "s" in
  intros s; unfold three_topics; rewrite !elem_of_cons;
  intros [->|[->|[->|[]%elem_of_nil]]]; vm_compute; by eexists.

Lemma plain_start_well_formed : well_formed example_services plain_start.
Proof.
  apply (initial_well_formed example_services example_schema false
           three_topics None None None); [|registered].
  apply (init_initial example_schema false 0 three_topics None None None None).
  vm_compute; reflexivity.
Qed.

Lemma slow_start_well_formed : well_formed slow_services slow_start.
Proof.
  apply (initial_well_formed slow_services example_schema false
           ["clocks"] None None None).
  - apply (init_initial example_schema false 0 ["clocks"] None None None None).
    vm_compute; reflexivity.
  - intros s ->%list_elem_of_singleton. vm_compute; by eexists.
Qed.

(** The frame counter over a run of two ticks. *)
Lemma frame_counter_witness :
  frame plain_start = (-1)%Z
  ∧ frame (update_msgs example_services 0.1 [] plain_start).2 = 0%Z
  ∧ frame (run_updates example_services
             [(0.1, [None]); (0.2, [Some model_msg])] plain_start) = 1%Z.
Proof.
  destruct (frame_counter example_services example_schema false 0
              three_topics None None None None plain_start)
    as (H1 & H2 & _ & H4 & _); [vm_compute; reflexivity|].
  split; [exact H1|]. split; [apply H2|].
  exact (H4 [(0.1, [None]); (0.2, [Some model_msg])]).
Defined.

(** C8 on a 20 Hz topic: with a message at 0.25 s, and with none over
    three ticks; and on a topic of frequency [1e-6] with no message at
    [2e7] s. *)
Lemma alive_threshold_witness :
  (∃ self',
     update_msgs example_services 0.25 [Some model_msg] plain_start
     = (Ok tt, self')
     ∧ ∃ rt,
         dict_get (recv_time self') "modelV2" = Some rt
         ∧ dict_get (alive self') "modelV2" = Some (0.25 - rt <? 10.0 / 20.0))
  ∧ (∃ self',
       update_msgs slow_services 2e7 [] slow_start = (Ok tt, self')
       ∧ dict_get (alive self') "clocks" = Some true)
  ∧ (∃ self',
       update_msgs example_services 0.3 []
         (run_updates example_services [(0.1, [None]); (0.2, [])] plain_start)
       = (Ok tt, self')
       ∧ dict_get (alive self') "modelV2" = Some (0.3 <? 0.5)).
Proof.
  split; [|split].
  - destruct (proj1 (alive_threshold example_services) 0.25 [Some model_msg]
                plain_start plain_start_well_formed)
      as (self' & Hrun & Hal); [tracked|].
    exists self'. split; [exact Hrun|].
    apply (Hal "modelV2" {| frequency := 20.0 |}).
    + replace self'
        with (update_msgs example_services 0.25 [Some model_msg]
                plain_start).2
        by (by rewrite Hrun).
      member.
    + vm_compute; reflexivity.
  - destruct (proj1 (alive_threshold slow_services) 2e7 []
                slow_start slow_start_well_formed)
      as (self' & Hrun & Hal); [tracked|].
    exists self'. split; [exact Hrun|].
    apply (Hal "clocks" {| frequency := 1e-6 |}).
    + replace self'
        with (update_msgs slow_services 2e7 [] slow_start).2
        by (by rewrite Hrun).
      member.
    + vm_compute; reflexivity.
  - destruct (proj2 (alive_threshold example_services) example_schema false 0
                three_topics None None None None plain_start
                [(0.1, [None]); (0.2, [])] 0.3 []
                "modelV2" {| frequency := 20.0 |})
      as (self' & Hrun & H & _).
    + vm_compute; reflexivity.
    + registered.
    + member.
    + vm_compute; reflexivity.
    + reflexivity.
    + repeat (apply Forall_cons_2; [split; [quiet|tracked]|]).
      apply Forall_nil_2.
    + quiet.
    + tracked.
    + exists self'. by split.
Defined.

(** C8 as stated fails on a topic with the positive frequency [1e-6]:
    with no message, at [cur_time = 2e7] the claimed value
    [(2e7 - 0) < 10 / 1e-6] is false, and the code sets [alive] to
    true.  And the half second of the 20 Hz topic is counted on the
    monotonic clock, not from construction: an aggregator constructed
    when the clock reads 100 s and updated a tenth of a second later,
    with no message, has [alive = False]. *)
Lemma alive_threshold_counterexample :
  SubMaster.__init__ example_schema false 0 ["clocks"] None None None None
  = Ok slow_start
  ∧ (0 <? 1e-6) = true
  ∧ dict_get slow_services "clocks" = Some {| frequency := 1e-6 |}
  ∧ py_in "clocks" (ignore_alive slow_start) = false
  ∧ (update_msgs slow_services 2e7 [] slow_start).1 = Ok tt
  ∧ dict_get (recv_time (update_msgs slow_services 2e7 [] slow_start).2)
      "clocks" = Some 0
  ∧ (2e7 - 0 <? 10.0 / 1e-6) = false
  ∧ dict_get (alive (update_msgs slow_services 2e7 [] slow_start).2)
      "clocks" = Some true
  ∧ SubMaster.__init__ example_schema false 100 three_topics
      None None None None = Ok late_start
  ∧ (100.1 - 100 <? 0.5) = true
  ∧ (update_msgs example_services 100.1 [] late_start).1 = Ok tt
  ∧ dict_get (alive (update_msgs example_services 100.1 [] late_start).2)
      "modelV2" = Some false.
Proof. vm_compute. repeat split; reflexivity. Qed.

(** C3 on a 20 Hz topic with one message at 0.05 s, and on a topic of
    frequency [1e-6] with one message at [2e6] s. *)
Lemma avg_freq_check_witness :
  (∃ self',
     update_msgs slow_services 2e6 [Some clocks_msg] slow_start
     = (Ok tt, self')
     ∧ _check_avg_freq slow_services self' "clocks" = Ok false
     ∧ dict_get (freq_ok self') "clocks" = Some true)
  ∧ ∃ self',
    update_msgs example_services 0.05 [Some model_msg] plain_start
    = (Ok tt, self')
    ∧ ∃ rt fo,
        dict_get (recv_time self') "modelV2" = Some rt
        ∧ dict_get (freq_ok self') "modelV2" = Some fo
        ∧ _check_avg_freq example_services self' "modelV2"
          = Ok ((1e-5 <? rt) && (1e-5 <? 20.0)
                && negb (py_in "modelV2" (non_polled_services self'))
                && negb (py_in "modelV2" (ignore_average_freq self'))
                && negb (py_in "modelV2" (ignore_alive self')))
        ∧ if (1e-5 <? rt) && (1e-5 <? 20.0)
             && negb (py_in "modelV2" (non_polled_services self'))
             && negb (py_in "modelV2" (ignore_average_freq self'))
             && negb (py_in "modelV2" (ignore_alive self'))
          then
            ∃ dts,
              dict_get (recv_dts self') "modelV2" = Some dts
              ∧ fo = match dts with
                     | [] => false
                     | _ :: _ => mean dts <? 1 / (0.9 * 20.0)
                     end
          else fo = true.
Proof.
  split.
  { destruct (avg_freq_check slow_services 2e6 [Some clocks_msg] slow_start
                slow_start_well_formed)
      as (self' & Hrun & Hcheck); [tracked|].
    exists self'. split; [exact Hrun|].
    apply (Hcheck "clocks" {| frequency := 1e-6 |}).
    - replace self'
        with (update_msgs slow_services 2e6 [Some clocks_msg] slow_start).2
        by (by rewrite Hrun).
      member.
    - vm_compute; reflexivity. }
  destruct (avg_freq_check example_services 0.05 [Some model_msg] plain_start
              plain_start_well_formed)
    as (self' & Hrun & Hcheck); [tracked|].
  exists self'. split; [exact Hrun|].
  apply (Hcheck "modelV2" {| frequency := 20.0 |}).
  - replace self'
      with (update_msgs example_services 0.05 [Some model_msg] plain_start).2
      by (by rewrite Hrun).
    member.
  - vm_compute; reflexivity.
Defined.

(** C3 as stated fails on a topic with the positive frequency [1e-6]:
    after one message at [2e6] the receive time and the frequency are
    positive, the topic is polled and on no ignore list, the history is
    [[2e6]] and its mean is not below [1 / (0.9 * 1e-6)]; the claimed
    [freq_ok] is false, and the code sets it to true (its check does
    not apply). *)
Lemma avg_freq_check_counterexample :
  (update_msgs slow_services 2e6 [Some clocks_msg] slow_start).1 = Ok tt
  ∧ (0 <? 1e-6) = true
  ∧ dict_get (recv_time
      (update_msgs slow_services 2e6 [Some clocks_msg] slow_start).2)
      "clocks" = Some 2e6
  ∧ (0 <? 2e6) = true
  ∧ config (update_msgs slow_services 2e6 [Some clocks_msg] slow_start).2
    = ([], [], [], [])
  ∧ dict_get (recv_dts
      (update_msgs slow_services 2e6 [Some clocks_msg] slow_start).2)
      "clocks" = Some [2e6]
  ∧ (mean [2e6] <? 1 / (0.9 * 1e-6)) = false
  ∧ dict_get (freq_ok
      (update_msgs slow_services 2e6 [Some clocks_msg] slow_start).2)
      "clocks" = Some true
  ∧ _check_avg_freq slow_services
      (update_msgs slow_services 2e6 [Some clocks_msg] slow_start).2
      "clocks" = Ok false.
Proof. vm_compute. repeat split; reflexivity. Qed.
(** C1 on three topics, first update at 100 s with no message. *)
Lemma simulation_override_witness :
  ∃ self',
    update_msgs example_services 100 [] sim_start = (Ok tt, self')
    ∧ (∀ s, s ∈ three_topics → dict_get (freq_ok self') s = Some true)
    ∧ all_alive self' None = Ok true
    ∧ all_freq_ok example_services self' None = Ok true.
Proof.
  destruct (simulation_override example_services example_schema 0
              three_topics None None None None sim_start 100 [])
    as (self' & Hrun & Hflags & Ha & Hf & _).
  - vm_compute; reflexivity.
  - registered.
  - tracked.
  - exists self'. split; [exact Hrun|]. split; [|by split].
    intros s Hs. by destruct (Hflags s Hs).
Defined.

(** C1 as stated fails: with the simulation override set and no message
    received, the first update at a clock reading of 100 s leaves the
    20 Hz topic with [alive = False]. *)
Lemma simulation_override_counterexample :
  SubMaster.__init__ example_schema true 0 three_topics None None None None
  = Ok sim_start
  ∧ (update_msgs example_services 100 [] sim_start).1 = Ok tt
  ∧ frame (update_msgs example_services 100 [] sim_start).2 = 0%Z
  ∧ dict_get (alive (update_msgs example_services 100 [] sim_start).2)
      "modelV2" = Some false.
Proof. vm_compute. repeat split; reflexivity. Qed.

(** C2 with one topic on each ignore list. *)
Lemma ignore_lists_exclude_witness :
  all_alive
    (set_alive (dict_set "modelV2" false (alive ignoring_start))
       ignoring_start) None
  = all_alive ignoring_start None
  ∧ all_freq_ok example_services
      (set_freq_ok (dict_set "can" false (freq_ok ignoring_start))
         ignoring_start) None
    = all_freq_ok example_services ignoring_start None
  ∧ all_valid
      (set_valid (dict_set "userFlag" false (valid ignoring_start))
         ignoring_start) None
    = all_valid ignoring_start None
  ∧ config (run_updates example_services [(0.1, [Some model_msg])]
              ignoring_start)
    = config ignoring_start.
Proof.
  split; [|split; [|split]].
  - apply (proj1 (ignore_lists_exclude example_services ignoring_start
                    "modelV2")). member.
  - apply (proj1 (proj2 (ignore_lists_exclude example_services ignoring_start
                           "can"))). member.
  - apply (proj1 (proj2 (proj2 (ignore_lists_exclude example_services
                                  ignoring_start "userFlag")))). member.
  - apply (proj1 (proj2 (proj2 (proj2 (ignore_lists_exclude example_services
                                         ignoring_start "modelV2"))))).
Defined.

(** C2 as stated fails: a 20 Hz topic on the alive-ignore list, with no
    message received, has [alive = False] after an update at 100 s. *)
Lemma ignore_lists_exclude_counterexample :
  SubMaster.__init__ example_schema false 0 three_topics
    None (Some ["modelV2"]) (Some ["can"]) (Some ["userFlag"])
  = Ok ignoring_start
  ∧ py_in "modelV2" (ignore_alive ignoring_start) = true
  ∧ (update_msgs example_services 100 [] ignoring_start).1 = Ok tt
  ∧ dict_get (alive (update_msgs example_services 100 [] ignoring_start).2)
      "modelV2" = Some false.
Proof. vm_compute. repeat split; reflexivity. Qed.

(** C9 on three topics, before and after a tick that brings a message
    for [modelV2] only. *)
Lemma valid_before_first_message_witness :
  all_valid plain_start None = Ok true
  ∧ all_valid
      (run_updates example_services [(0.1, [Some model_msg])] plain_start)
      (Some ["can"; "userFlag"]) = Ok true.
Proof.
  destruct (valid_before_first_message example_services example_schema false
              0 three_topics None None None None plain_start)
    as (_ & Hall & Hrun & _).
  - vm_compute; reflexivity.
  - split; [exact Hall|].
    destruct (Hrun [(0.1, [Some model_msg])] ["can"; "userFlag"])
      as (_ & Hv & _).
    + intros s Hs. revert Hs. unfold three_topics.
      rewrite !elem_of_cons. intros [->|[->|[]%elem_of_nil]]; by auto.
    + repeat constructor. intros s Hs m Hm.
      apply elem_of_cons in Hm as [Hm|[]%elem_of_nil].
      injection Hm as ->. revert Hs. rewrite !elem_of_cons.
      intros [->|[->|[]%elem_of_nil]]; vm_compute; discriminate.
    + exact Hv.
Defined.

(** C7 on a topic that has received 100 messages, and receives one
    more. *)
Lemma history_bound_witness :
  (∀ s dts,
     dict_get (recv_dts
       (run_updates example_services
          (repeat (0.05, [Some model_msg]) 101) plain_start)) s = Some dts →
     (length dts ≤ 100)%nat)
  ∧ dict_get (recv_dts
      (update_msg 0.1 (Some model_msg)
         (run_updates example_services
            (repeat (0.05, [Some model_msg]) 100) plain_start)).2)
      "modelV2"
    = Some (repeat 0 99 ++ [0.1 - 0.05]).
Proof.
  destruct (history_bound example_services example_schema false 0
              three_topics None None None None plain_start)
    as (Hb & Hfull).
  - vm_compute; reflexivity.
  - split; [exact (Hb (repeat (0.05, [Some model_msg]) 101))|].
    apply (Hfull _ 0.1 model_msg 0.05 (repeat 0 99) 0.05).
    + vm_compute; reflexivity.
    + reflexivity.
    + vm_compute; reflexivity.
Defined.

(** C5 on the list topic [can]. *)
Lemma variable_length_placeholder_witness :
  new_message example_schema 0 (Some "can") None no_kwargs
  = Raise KjException
  ∧ new_message example_schema 0 (Some "can") (Some 0%nat) no_kwargs
    = Ok (Event.mk false 0 "can" (PList "can" 0))
  ∧ ∃ self,
      SubMaster.__init__ example_schema false 0 three_topics
        None None None None = Ok self
      ∧ dict_get (data self) "can" = Some (PList "can" 0).
Proof.
  destruct (variable_length_placeholder example_schema 0 0%Z "can")
    as (H1 & H2 & H3).
  - vm_compute; reflexivity.
  - vm_compute; reflexivity.
  - split; [exact H1|]. split; [exact H2|].
    apply (H3 false three_topics None None None None).
    + member.
    + intros s. unfold three_topics. rewrite !elem_of_cons.
      intros [->|[->|[->|[]%elem_of_nil]]]; vm_compute; by eexists.
Defined.

(** C5 as stated fails: [new_message] for the list topic [can] with no
    size raises. *)
Lemma variable_length_placeholder_counterexample :
  dict_get example_schema "can" = Some ListField
  ∧ new_message example_schema 0 (Some "can") None no_kwargs
    = Raise KjException.
Proof. vm_compute. split; reflexivity. Qed.

(** C4 in the world with a clock: a one-second wait polling every
    50 ms returns true at the poll after the readers caught up at
    0.93 s, and false after 20 sleeps when they never do; a wait of
    minus one second polling every minus 50 ms raises [ValueError] at
    its first sleep. *)
Lemma wait_for_readers_witness :
  PubMaster.wait_for_readers_to_update clock_all_readers_updated clock_sleep
    (PubMaster.__init__ ["modelV2"]) "modelV2" 1 0.05
    {| clock := 0; ready_at := 0.93 |}
  = (Ok true,
     sleeps clock_slept 0.05 19 {| clock := 0; ready_at := 0.93 |})
  ∧ PubMaster.wait_for_readers_to_update clock_all_readers_updated clock_sleep
      (PubMaster.__init__ ["modelV2"]) "modelV2" 1 0.05
      {| clock := 0; ready_at := 5 |}
    = (Ok false,
       sleeps clock_slept 0.05 20 {| clock := 0; ready_at := 5 |})
  ∧ PubMaster.wait_for_readers_to_update clock_all_readers_updated clock_sleep
      (PubMaster.__init__ ["modelV2"]) "modelV2" (-1) (-0.05)
      {| clock := 0; ready_at := 5 |}
    = (Raise ValueError, {| clock := 0; ready_at := 5 |}).
Proof.
  split; [|split].
  - apply (proj1 (proj1 (wait_for_readers clock_all_readers_updated
                           clock_sleep clock_slept
                           (PubMaster.__init__ ["modelV2"]) "modelV2" "modelV2"
                           1 0.05 20 20%Z {| clock := 0; ready_at := 0.93 |}
                           eq_refl eq_refl eq_refl)
                    (fun w' => eq_refl)) 19%nat).
    + vm_compute. lia.
    + vm_compute; reflexivity.
    + intros j Hj.
      do 19 (destruct j as [|j]; [vm_compute; reflexivity|]). lia.
  - apply (proj2 (proj1 (wait_for_readers clock_all_readers_updated
                           clock_sleep clock_slept
                           (PubMaster.__init__ ["modelV2"]) "modelV2" "modelV2"
                           1 0.05 20 20%Z {| clock := 0; ready_at := 5 |}
                           eq_refl eq_refl eq_refl)
                    (fun w' => eq_refl))).
    intros j Hj.
    do 20 (destruct j as [|j]; [vm_compute; reflexivity|]).
    vm_compute in Hj. lia.
  - apply (proj2 (wait_for_readers clock_all_readers_updated
                    clock_sleep clock_slept
                    (PubMaster.__init__ ["modelV2"]) "modelV2" "modelV2"
                    (-1) (-0.05) (-20) 20%Z {| clock := 0; ready_at := 5 |}
                    eq_refl eq_refl eq_refl)
             ValueError {| clock := 0; ready_at := 5 |});
      [lia|reflexivity|reflexivity].
Defined.

(** C4 as stated fails: the readers catch up 0.97 s into a one-second
    wait polling every 50 ms and stay caught up, yet the call returns
    false; its last poll was at about 0.95 s, and it slept once more
    before giving up. *)
Lemma wait_for_readers_counterexample :
  (0.97 <? 1) = true
  ∧ (PubMaster.wait_for_readers_to_update clock_all_readers_updated clock_sleep
       (PubMaster.__init__ ["modelV2"]) "modelV2" 1 0.05
       {| clock := 0; ready_at := 0.97 |}).1 = Ok false
  ∧ clock_all_readers_updated "modelV2"
      (PubMaster.wait_for_readers_to_update clock_all_readers_updated
         clock_sleep (PubMaster.__init__ ["modelV2"]) "modelV2" 1 0.05
         {| clock := 0; ready_at := 0.97 |}).2 = true
  ∧ (PubMaster.wait_for_readers_to_update clock_all_readers_updated clock_sleep
       (PubMaster.__init__ ["modelV2"]) "modelV2" 1 0.3
       {| clock := 0; ready_at := 5 |})
    = (Ok false, {| clock := 0.3 + 0.3 + 0.3; ready_at := 5 |})
  ∧ (0.3 + 0.3 + 0.3 <? 1) = true.
Proof. vm_compute. repeat split; reflexivity. Qed.

(** C10 on an empty queue with a receive timeout. *)
Lemma drain_wait_for_one_empty_witness :
  drain_sock_raw queue_receive 1 [] true = Some ([], [])
  ∧ drain_sock queue_receive (fun _ => Raise KjException) 1 [] true
    = Some (Ok [], []).
Proof.
  apply (drain_wait_for_one_empty queue_receive (fun _ => Raise KjException)
           0 [] []).
  reflexivity.
Defined.
End Examples.

(** * Further properties of the code *)

(** ** The receive helpers *)

Section ReceiveFacts.
Context {SubSocket : Type}
        (receive : bool → SubSocket → option bytes * SubSocket)
        (log_from_bytes : bytes → result Event.t).

Lemma last_snoc_Some {A} (l : list A) (x : A) : last (l ++ [x]) = Some x.
Proof. by rewrite last_snoc. Qed.

Lemma length_zero_last {A} (l : list A) :
  (length l =? 0)%nat = match last l with None => true | Some _ => false end.
Proof.
  destruct l as [|x l] using rev_ind; [done|].
  rewrite last_snoc, length_app. simpl.
  destruct (Nat.eqb_spec (length l + 1) 0); [lia|done].
Qed.

Lemma recv_sock_loop_last fuel wait ret sock ds sock' :
  drain_sock_raw_loop receive fuel wait ret sock = Some (ds, sock') →
  recv_sock_loop receive fuel wait (last ret) sock = Some (last ds, sock').
Proof.
  revert ret sock. induction fuel as [|fuel IH]; intros ret sock; [done|].
  simpl. rewrite length_zero_last.
  destruct (if wait && _ then receive false sock else receive true sock)
    as [[d|] sock1].
  - intros H. apply IH in H. by rewrite last_snoc in H.
  - by intros [= <- <-].
Qed.

(** X1: [recv_sock] returns the last of the messages [drain_sock_raw]
    returns on the same socket (none when there is none), decoded, and
    leaves the socket in the same state. *)
Theorem recv_sock_is_last_drained fuel sock wait ds sock' :
  drain_sock_raw receive fuel sock wait = Some (ds, sock') →
  recv_sock receive log_from_bytes fuel sock wait
  = Some (decode_if_any log_from_bytes (last ds), sock').
Proof.
  unfold drain_sock_raw, recv_sock. intros H.
  apply recv_sock_loop_last in H. simpl in H. by rewrite H.
Qed.

Lemma decode_all_snoc ds d ms m :
  decode_all log_from_bytes ds = Ok ms →
  log_from_bytes d = Ok m →
  decode_all log_from_bytes (ds ++ [d]) = Ok (ms ++ [m]).
Proof.
  revert ms. induction ds as [|x ds IH]; intros ms; simpl.
  - intros [= <-] ->. done.
  - destruct (log_from_bytes x) as [mx|e]; [|done].
    destruct (decode_all log_from_bytes ds) as [ms'|e]; [|done].
    intros [= <-] Hd. by rewrite (IH ms' eq_refl Hd).
Qed.

Lemma decode_all_length ds ms :
  decode_all log_from_bytes ds = Ok ms → length ms = length ds.
Proof.
  revert ms. induction ds as [|x ds IH]; intros ms; simpl.
  - by intros [= <-].
  - destruct (log_from_bytes x) as [mx|e]; [|done].
    destruct (decode_all log_from_bytes ds) as [ms'|e]; [|done].
    intros [= <-]. simpl. by rewrite (IH ms').
Qed.

(** Decoding stops at the first message that does not decode. *)
Lemma decode_all_snoc_raise ds d ms e :
  decode_all log_from_bytes ds = Ok ms →
  log_from_bytes d = Raise e →
  ∀ rest, decode_all log_from_bytes (ds ++ d :: rest) = Raise e.
Proof.
  revert ms. induction ds as [|x ds IH]; intros ms; simpl.
  - intros _ -> rest. done.
  - destruct (log_from_bytes x) as [mx|e']; [|done].
    destruct (decode_all log_from_bytes ds) as [ms'|e']; [|done].
    intros _ Hd rest. by rewrite (IH ms' eq_refl Hd).
Qed.

Lemma drain_sock_raw_loop_prefix fuel wait ret sock ds sock' :
  drain_sock_raw_loop receive fuel wait ret sock = Some (ds, sock') →
  ∃ rest, ds = ret ++ rest.
Proof.
  revert ret sock. induction fuel as [|fuel IH]; intros ret sock; [done|].
  simpl.
  destruct (if wait && _ then receive false sock else receive true sock)
    as [[d|] sock1].
  - intros H. apply IH in H as [rest ->]. exists (d :: rest).
    by rewrite <- app_assoc.
  - intros [= <- <-]. exists []. by rewrite app_nil_r.
Qed.

Lemma drain_sock_loop_decodes fuel wait raw ret sock ds sock' :
  decode_all log_from_bytes raw = Ok ret →
  drain_sock_raw_loop receive fuel wait raw sock = Some (ds, sock') →
  match decode_all log_from_bytes ds with
  | Ok ms =>
      drain_sock_loop receive log_from_bytes fuel wait ret sock
      = Some (Ok ms, sock')
  | Raise e =>
      ∃ sock1,
        drain_sock_loop receive log_from_bytes fuel wait ret sock
        = Some (Raise e, sock1)
  end.
Proof.
  revert raw ret sock. induction fuel as [|fuel IH]; intros raw ret sock Hdec;
    [done|].
  simpl. rewrite (decode_all_length _ _ Hdec).
  destruct (if wait && _ then receive false sock else receive true sock)
    as [[d|] sock1].
  - intros H. destruct (log_from_bytes d) as [m|e] eqn:Hd.
    + by apply (IH (raw ++ [d]) (ret ++ [m]) sock1 (decode_all_snoc _ _ _ _ Hdec Hd)).
    + apply drain_sock_raw_loop_prefix in H as [rest ->].
      rewrite <- app_assoc. simpl.
      rewrite (decode_all_snoc_raise _ _ _ _ Hdec Hd). by eexists.
  - intros [= <- <-]. by rewrite Hdec.
Qed.

(** X2: [drain_sock] returns the messages [drain_sock_raw] returns on
    the same socket, decoded in the same order, and leaves the socket
    in the same state; when one of them does not decode it raises the
    exception of the first such message. *)
Theorem drain_sock_decodes_drained fuel sock wait ds sock' :
  drain_sock_raw receive fuel sock wait = Some (ds, sock') →
  match decode_all log_from_bytes ds with
  | Ok ms =>
      drain_sock receive log_from_bytes fuel sock wait = Some (Ok ms, sock')
  | Raise e =>
      ∃ sock1,
        drain_sock receive log_from_bytes fuel sock wait
        = Some (Raise e, sock1)
  end.
Proof.
  unfold drain_sock_raw, drain_sock. by apply drain_sock_loop_decodes.
Qed.

Lemma drain_sock_raw_loop_yields fuel wait ret sock ds sock' :
  yields receive ds sock sock' →
  (length ds < fuel)%nat →
  wait && (length ret =? 0)%nat = false →
  drain_sock_raw_loop receive fuel wait ret sock = Some (ret ++ ds, sock').
Proof.
  revert fuel ret sock. induction ds as [|d ds IH]; intros fuel ret sock.
  - simpl. intros Hr Hf Hw. destruct fuel as [|fuel]; [lia|].
    simpl. rewrite Hw, Hr. by rewrite app_nil_r.
  - simpl. intros (sock1 & Hr & Hy) Hf Hw. destruct fuel as [|fuel]; [lia|].
    simpl. rewrite Hw, Hr.
    rewrite (IH fuel (ret ++ [d]) sock1 Hy); [by rewrite <- app_assoc|lia|].
    rewrite length_app. simpl.
    destruct (Nat.eqb_spec (length ret + 1) 0); [lia|].
    apply andb_false_r.
Qed.

(** X3: [drain_sock_raw] returns every message the socket has to give,
    in arrival order: when the non-blocking receives yield [ds] and then
    the absent value, it returns [ds]; with [wait_for_one] set and a
    first, blocking receive that yields [d], it returns [d :: ds]. *)
Theorem drain_sock_raw_in_order fuel sock ds sock' :
  (yields receive ds sock sock' →
   (length ds < fuel)%nat →
   drain_sock_raw receive fuel sock false = Some (ds, sock'))
  ∧ (∀ d sock1,
       receive false sock = (Some d, sock1) →
       yields receive ds sock1 sock' →
       (S (length ds) < fuel)%nat →
       drain_sock_raw receive fuel sock true = Some (d :: ds, sock')).
Proof.
  split.
  - intros Hy Hf. unfold drain_sock_raw.
    by rewrite (drain_sock_raw_loop_yields fuel false [] sock ds sock').
  - intros d sock1 Hr Hy Hf. unfold drain_sock_raw.
    destruct fuel as [|fuel]; [lia|]. simpl. rewrite Hr.
    by rewrite (drain_sock_raw_loop_yields fuel true [d] sock1 ds sock')
      by (done || lia).
Qed.

(** X4: [recv_one_retry] goes through the receives that time out and
    returns the first message that arrives, decoded. *)
Theorem recv_one_retry_first_message k d sock sock' fuel :
  times_out_then receive k d sock sock' →
  (k < fuel)%nat →
  recv_one_retry receive log_from_bytes fuel sock
  = Some (log_from_bytes d, sock').
Proof.
  revert sock fuel. induction k as [|k IH]; intros sock fuel; simpl.
  - intros Hr Hf. destruct fuel as [|fuel]; [lia|]. simpl. by rewrite Hr.
  - intros (sock1 & Hr & Ht) Hf. destruct fuel as [|fuel]; [lia|].
    simpl. rewrite Hr. apply IH; [done|lia].
Qed.
End ReceiveFacts.

(** ** SubMaster: what a tick takes in *)

Section SubMasterIntake.
Context (SERVICE_LIST : dict Service).

Lemma deque_append_length_min d x :
  (length d ≤ AVG_FREQ_HISTORY)%nat →
  length (deque_append AVG_FREQ_HISTORY d x)
  = Nat.min AVG_FREQ_HISTORY (length d + 1).
Proof.
  intros Hd. unfold deque_append. rewrite length_app. cbn [length].
  destruct (Nat.ltb_spec AVG_FREQ_HISTORY (length d + 1)) as [Hlt|Hge].
  - rewrite Nat.min_l by lia.
    destruct d as [|y d]; cbn [length app tail] in *.
    + unfold AVG_FREQ_HISTORY in *. lia.
    + rewrite length_app. cbn [length]. lia.
  - rewrite Nat.min_r by lia. rewrite length_app. cbn [length]. lia.
Qed.

(** The message loop on a well-formed state: per topic, the last
    message of the tick is the one that stays, and the history grows
    by one interval a message, up to its bound. *)
Lemma update_msg_loop cur_time msgs st :
  well_formed SERVICE_LIST st →
  tracked_messages st msgs →
  ∃ st',
    for_each msgs (update_msg cur_time) st = (Ok tt, st')
    ∧ well_formed SERVICE_LIST st'
    ∧ dict_keys (data st') = dict_keys (data st)
    ∧ frame st' = frame st
    ∧ ∀ s,
        match last (msgs_for s msgs) with
        | Some m =>
            dict_get (updated st') s = Some true
            ∧ dict_get (recv_time st') s = Some cur_time
            ∧ dict_get (recv_frame st') s = Some (frame st)
            ∧ dict_get (data st') s = Some (Event.payload m)
            ∧ dict_get (valid st') s = Some (Event.valid m)
            ∧ dict_get (logMonoTime st') s = Some (Event.logMonoTime m)
        | None =>
            dict_get (updated st') s = dict_get (updated st) s
            ∧ received s st' = received s st
        end
        ∧ ∀ dts,
            dict_get (recv_dts st) s = Some dts →
            ∃ dts',
              dict_get (recv_dts st') s = Some dts'
              ∧ length dts'
                = Nat.min AVG_FREQ_HISTORY
                    (length dts + length (msgs_for s msgs)).
Proof.
  revert st. induction msgs as [|[m|] msgs IH]; intros st Hwf Htr.
  - exists st. split_and!; try done. intros s. cbn [msgs_for last length].
    split; [done|]. intros dts Hd. exists dts. split; [done|].
    pose proof (proj1 Hwf s dts Hd) as Hb.
    rewrite Nat.min_r by lia. lia.
  - assert (Event.which m ∈ dict_keys (data st)) as Hm
      by (apply Htr; by left).
    destruct (proj2 Hwf _ Hm) as (_ & [rt Hrt] & [dts0 Hdts0]).
    destruct (update_msg_total SERVICE_LIST cur_time (Some m) st Hwf)
      as (st1 & H1 & Hwf1 & Hk1); [by intros ? [= <-]|].
    pose proof (update_msg_Ok cur_time m st dts0 rt Hdts0 Hrt) as Hexp.
    rewrite H1 in Hexp. injection Hexp as Hst1.
    destruct (IH st1 Hwf1) as (st' & H' & Hwf' & Hk' & Hfr' & Hall).
    { intros m' Hm'. rewrite Hk1. apply Htr. by right. }
    exists st'. cbn [for_each msgs_for]. unfold bind. rewrite H1.
    split; [done|]. split; [done|]. split; [by rewrite Hk'|].
    assert (frame st1 = frame st) as Hfr1 by (by rewrite Hst1).
    split; [by rewrite Hfr'|].
    intros s. destruct (Hall s) as [Hlast Hhist]. clear Hall.
    destruct (decide (Event.which m = s)) as [Hs|Hs].
    + rewrite last_cons. split.
      * destruct (last (msgs_for s msgs)) as [m'|].
        { by rewrite <- Hfr1. }
        destruct Hlast as [Hu Hr]. unfold received in Hr.
        injection Hr as Hr1 Hr2 Hr3 Hr4 Hr5 Hr6.
        rewrite Hu, Hr1, Hr3, Hr4, Hr5, Hr6, Hst1. cbn. subst s.
        by rewrite !dict_get_set_eq.
      * intros dts Hd. subst s. rewrite Hdts0 in Hd. injection Hd as <-.
        destruct (Hhist (deque_append AVG_FREQ_HISTORY dts0
                           (cur_time - rt)%float))
          as (dts' & Hd' & Hlen).
        { rewrite Hst1. cbn. by rewrite dict_get_set_eq. }
        exists dts'. split; [done|]. rewrite Hlen.
        rewrite deque_append_length_min by (by eapply (proj1 Hwf)).
        cbn [length]. lia.
    + assert (received s st1 = received s st
              ∧ dict_get (updated st1) s = dict_get (updated st) s)
        as [Hr1 Hu1].
      { rewrite Hst1. unfold received. cbn.
        by rewrite !dict_get_set_ne. }
      split.
      * destruct (last (msgs_for s msgs)) as [m'|].
        { by rewrite <- Hfr1. }
        destruct Hlast as [Hu Hr]. by rewrite Hu, Hr.
      * intros dts Hd. apply Hhist.
        unfold received in Hr1. injection Hr1 as _ Hr1 _ _ _ _.
        by rewrite Hr1.
  - change (for_each (None :: msgs) (update_msg cur_time) st)
      with (for_each msgs (update_msg cur_time) st).
    cbn [msgs_for].
    destruct (IH st Hwf) as (st' & H' & Hrest).
    { intros m' Hm'. apply Htr. by right. }
    exists st'. by rewrite H'.
Qed.
End SubMasterIntake.

Section SubMasterTick.
Context (SERVICE_LIST : dict Service).

(** The two loops of an [update_msgs] that returns. *)
Lemma update_msgs_split cur_time msgs self self' :
  update_msgs SERVICE_LIST cur_time msgs self = (Ok tt, self') →
  ∃ mid,
    for_each msgs (update_msg cur_time)
      (set_updated (dict_fromkeys (updated self) false)
         (set_frame (frame self + 1) self)) = (Ok tt, mid)
    ∧ for_each (dict_keys (data mid))
        (update_service SERVICE_LIST cur_time) mid = (Ok tt, self').
Proof.
  unfold update_msgs. rewrite !bind_modify. intros Hrun.
  apply bind_Ok_inv in Hrun as ([] & mid & Hmid & Hrun).
  apply bind_Ok_inv in Hrun as (mid' & st1 & Hget & Hrun).
  unfold get in Hget. injection Hget as <- <-. by exists mid.
Qed.

Lemma update_msgs_intake cur_time msgs self :
  well_formed SERVICE_LIST self →
  tracked_messages self msgs →
  ∃ self',
    update_msgs SERVICE_LIST cur_time msgs self = (Ok tt, self')
    ∧ ∀ s,
        match last (msgs_for s msgs) with
        | Some m =>
            dict_get (updated self') s = Some true
            ∧ dict_get (recv_time self') s = Some cur_time
            ∧ dict_get (recv_frame self') s = Some (frame self + 1)
            ∧ dict_get (data self') s = Some (Event.payload m)
            ∧ dict_get (valid self') s = Some (Event.valid m)
            ∧ dict_get (logMonoTime self') s = Some (Event.logMonoTime m)
        | None =>
            dict_get (updated self') s
            = (fun _ => false) <$> dict_get (updated self) s
            ∧ received s self' = received s self
        end
        ∧ ∀ dts,
            dict_get (recv_dts self) s = Some dts →
            ∃ dts',
              dict_get (recv_dts self') s = Some dts'
              ∧ length dts'
                = Nat.min AVG_FREQ_HISTORY
                    (length dts + length (msgs_for s msgs)).
Proof.
  intros Hwf Htr.
  destruct (update_msgs_total SERVICE_LIST cur_time msgs self Hwf Htr)
    as (self' & Hrun & _).
  exists self'. split; [done|].
  apply update_msgs_split in Hrun as (mid & Hmid & Hrun).
  set (st0 := set_updated _ _) in Hmid.
  destruct (update_msg_loop SERVICE_LIST cur_time msgs st0)
    as (mid' & Hmid' & _ & _ & _ & Hall); [done|done|].
  rewrite Hmid in Hmid'. injection Hmid' as <-.
  pose proof (update_services_keeps SERVICE_LIST
                (fun st => (updated st, recv_time st, recv_dts st,
                            recv_frame st, data st, valid st, logMonoTime st))
                cur_time (dict_keys (data mid))
                (fun _ _ => eq_refl) (fun _ _ => eq_refl) mid) as Hk.
  rewrite Hrun in Hk. cbn [snd] in Hk.
  injection Hk as Hk1 Hk2 Hk3 Hk4 Hk5 Hk6 Hk7.
  intros s. destruct (Hall s) as [Hlast Hhist].
  unfold received in *. rewrite Hk1, Hk2, Hk3, Hk4, Hk5, Hk6, Hk7.
  split; [|exact Hhist].
  destruct (last (msgs_for s msgs)); [exact Hlast|].
  destruct Hlast as [Hu Hr]. split; [|exact Hr].
  rewrite Hu. subst st0. cbn. apply dict_get_fromkeys.
Qed.

(** X5: an [update_msgs] on a well-formed aggregator, with messages for
    tracked topics, returns, and for every topic the last message of the
    tick is the one that stays: [updated] is true, [recv_time] is the
    time of the tick, [recv_frame] the new frame, and [data], [valid],
    [logMonoTime] are that message's.  A topic without a message in the
    tick has [updated] reset to false and everything received
    untouched. *)
Theorem update_msgs_latest cur_time msgs self :
  well_formed SERVICE_LIST self →
  tracked_messages self msgs →
  ∃ self',
    update_msgs SERVICE_LIST cur_time msgs self = (Ok tt, self')
    ∧ ∀ s,
        match last (msgs_for s msgs) with
        | Some m =>
            dict_get (updated self') s = Some true
            ∧ dict_get (recv_time self') s = Some cur_time
            ∧ dict_get (recv_frame self') s = Some (frame self + 1)
            ∧ dict_get (data self') s = Some (Event.payload m)
            ∧ dict_get (valid self') s = Some (Event.valid m)
            ∧ dict_get (logMonoTime self') s = Some (Event.logMonoTime m)
        | None =>
            dict_get (updated self') s
            = (fun _ => false) <$> dict_get (updated self) s
            ∧ received s self' = received s self
        end.
Proof.
  intros Hwf Htr.
  destruct (update_msgs_intake cur_time msgs self Hwf Htr)
    as (self' & Hrun & Hall).
  exists self'. split; [done|]. intros s. by destruct (Hall s).
Qed.

(** X6: an [update_msgs] on a well-formed aggregator appends one
    interval to a topic's history for each message of the tick for that
    topic, up to the bound: the new length is
    [min(100, old length + messages for the topic)]. *)
Theorem update_msgs_history_length cur_time msgs self :
  well_formed SERVICE_LIST self →
  tracked_messages self msgs →
  ∃ self',
    update_msgs SERVICE_LIST cur_time msgs self = (Ok tt, self')
    ∧ ∀ s dts,
        dict_get (recv_dts self) s = Some dts →
        ∃ dts',
          dict_get (recv_dts self') s = Some dts'
          ∧ length dts'
            = Nat.min 100 (length dts + length (msgs_for s msgs)).
Proof.
  intros Hwf Htr.
  destruct (update_msgs_intake cur_time msgs self Hwf Htr)
    as (self' & Hrun & Hall).
  exists self'. split; [done|]. intros s. by destruct (Hall s).
Qed.

Lemma for_each_app {S A} (l1 l2 : list A) (body : A → M S unit) st :
  for_each (l1 ++ l2) body st
  = match for_each l1 body st with
    | (Ok _, st1) => for_each l2 body st1
    | (Raise e, st1) => (Raise e, st1)
    end.
Proof.
  revert st. induction l1 as [|x l1 IH]; intros st; [done|].
  cbn [app for_each]. unfold bind.
  destruct (body x st) as [[[]|e] st1]; [apply IH|done].
Qed.

Lemma msgs_for_nil s msgs :
  (∀ m, Some m ∈ msgs → Event.which m ≠ s) → msgs_for s msgs = [].
Proof.
  induction msgs as [|[m|] msgs IH]; intros H; cbn [msgs_for]; [done| |].
  - rewrite decide_False by (apply H; by left).
    apply IH. intros m' Hm'. apply H. by right.
  - apply IH. intros m' Hm'. apply H. by right.
Qed.

(** X7: a message for a topic the aggregator does not track makes
    [update_msgs] raise [KeyError] for that topic.  The frame has been
    counted and the messages before it taken in, but the messages after
    it are dropped and the health flags are not recomputed: [alive] and
    [freq_ok] stay as they were. *)
Theorem update_msgs_untracked cur_time pre m post self :
  well_formed SERVICE_LIST self →
  tracked_messages self pre →
  dict_get (recv_dts self) (Event.which m) = None →
  let r := update_msgs SERVICE_LIST cur_time (pre ++ Some m :: post) self in
  r.1 = Raise (KeyError (Event.which m))
  ∧ frame r.2 = frame self + 1
  ∧ alive r.2 = alive self
  ∧ freq_ok r.2 = freq_ok self
  ∧ (∀ s m', last (msgs_for s pre) = Some m' →
       dict_get (data r.2) s = Some (Event.payload m'))
  ∧ (∀ s, msgs_for s pre = [] → received s r.2 = received s self).
Proof.
  intros Hwf Htr Hnone r.
  pose (st0 := set_updated (dict_fromkeys (updated self) false)
                 (set_frame (frame self + 1) self)).
  destruct (update_msg_loop SERVICE_LIST cur_time pre st0)
    as (mid & Hmid & _ & _ & Hfr & Hall); [done|done|].
  assert (msgs_for (Event.which m) pre = []) as Hpre.
  { apply msgs_for_nil. intros m' Hm' Heq.
    destruct (proj2 Hwf _ (Htr m' Hm')) as (_ & _ & [dts Hd]).
    rewrite Heq in Hd. congruence. }
  assert (dict_get (recv_dts mid) (Event.which m) = None) as Hnone'.
  { destruct (Hall (Event.which m)) as [Hl _]. rewrite Hpre in Hl.
    destruct Hl as [_ Hr]. unfold received in Hr.
    injection Hr as _ Hr _ _ _ _. by rewrite Hr. }
  pose (g := fun st : SubMaster.t => (alive st, freq_ok st)).
  pose proof (keeps_for_each g pre (update_msg cur_time)
                (fun x => update_msg_keeps g cur_time x
                            (fun _ _ => eq_refl) (fun _ _ => eq_refl)
                            (fun _ _ => eq_refl) (fun _ _ => eq_refl)
                            (fun _ _ => eq_refl) (fun _ _ => eq_refl)
                            (fun _ _ => eq_refl)) st0) as Hk.
  subst g. rewrite Hmid in Hk. cbn [snd] in Hk. injection Hk as Hka Hkf.
  assert (r = (Raise (KeyError (Event.which m)),
               set_updated (dict_set (Event.which m) true (updated mid)) mid))
    as ->.
  { subst r. unfold update_msgs. rewrite !bind_modify.
    unfold bind at 1.
    match goal with
    | |- context [for_each (pre ++ _) _ ?st] => change st with st0
    end.
    rewrite for_each_app, Hmid.
    cbn [for_each]. unfold bind at 1.
    unfold update_msg at 1, bind, modify, reads, getitem. cbn.
    by rewrite Hnone'. }
  cbn. split; [done|]. split; [by rewrite Hfr|].
  split; [exact Hka|]. split; [exact Hkf|]. split.
  - intros s m' Hl. destruct (Hall s) as [Hlast _]. rewrite Hl in Hlast.
    by destruct Hlast as (_ & _ & _ & ? & _).
  - intros s Hs. destruct (Hall s) as [Hlast _]. rewrite Hs in Hlast.
    by destruct Hlast as [_ ?].
Qed.

(** X8: at any point of any run of updates from construction, also
    across updates that raise, [sm[s]] returns for every topic the
    aggregator was constructed with and raises [KeyError] for any
    other. *)
Theorem getitem_tracked schema simulation monotonic services poll ia iaf iv
    self :
  __init__ schema simulation monotonic services poll ia iaf iv = Ok self →
  ∀ ticks s,
    if bool_decide (s ∈ services) then
      ∃ p, SubMasterAccess.__getitem__
             (run_updates SERVICE_LIST ticks self) s = Ok p
    else
      SubMasterAccess.__getitem__ (run_updates SERVICE_LIST ticks self) s
      = Raise (KeyError s).
Proof.
  intros Hinit ticks s. apply init_initial in Hinit.
  pose proof (run_updates_tracks SERVICE_LIST services ticks self
                (initial_tracks _ _ _ _ _ _ _ Hinit) s) as Ht.
  unfold SubMasterAccess.__getitem__, getitem.
  destruct (bool_decide (s ∈ services)).
  - destruct Ht as (_ & _ & [p ->] & _). by exists p.
  - by destruct Ht as (_ & _ & -> & _).
Qed.
End SubMasterTick.

(** ** The aggregate predicates, topic by topic *)

Section AggregateFacts.
Context (SERVICE_LIST : dict Service).

(** A conjunction is true exactly when every topic is filtered out or
    has a true flag. *)
Lemma py_all_Ok_true keep d l :
  py_all keep d l = Ok true
  ↔ ∀ s, s ∈ l →
      keep s = Ok false ∨ (keep s = Ok true ∧ dict_get d s = Some true).
Proof.
  split; [|apply py_all_true].
  induction l as [|x l IH]; intros H s Hs; [by apply elem_of_nil in Hs|].
  cbn [py_all] in H. unfold rbind, getitem in H.
  destruct (keep x) as [[]|e] eqn:Hx; [| |done].
  - destruct (dict_get d x) as [[]|] eqn:Hd; [|done|done].
    apply elem_of_cons in Hs as [->|Hs]; [by right|by apply IH].
  - apply elem_of_cons in Hs as [->|Hs]; [by left|by apply IH].
Qed.

(** The conjunction reads the list from the left and stops at the first
    false flag or the first missing key. *)
Lemma py_all_app keep d l1 l2 :
  py_all keep d (l1 ++ l2)
  = match py_all keep d l1 with
    | Ok true => py_all keep d l2
    | r => r
    end.
Proof.
  induction l1 as [|x l1 IH]; [done|].
  cbn [app py_all]. unfold rbind.
  destruct (keep x) as [[]|e]; [|done|done].
  by destruct (getitem d x) as [[]|e].
Qed.

Lemma all_checks_split self service_list :
  all_checks SERVICE_LIST self service_list = Ok true
  ↔ all_alive self service_list = Ok true
    ∧ all_freq_ok SERVICE_LIST self service_list = Ok true
    ∧ all_valid self service_list = Ok true.
Proof.
  unfold all_checks, rbind.
  destruct (all_alive self service_list) as [[]|e];
    destruct (all_freq_ok SERVICE_LIST self service_list) as [[]|e'];
    simpl; intuition congruence.
Qed.

Lemma skip_or_true (ignore : list string) d s :
  (Ok (negb (py_in s ignore)) = Ok false
   ∨ (Ok (negb (py_in s ignore)) = @Ok bool true
      ∧ dict_get d s = Some true))
  ↔ s ∈ ignore ∨ dict_get d s = Some true.
Proof.
  unfold py_in. destruct (bool_decide_reflect (s ∈ ignore)); simpl.
  - split; [by left|by left].
  - split; [intros [[=]|[_ ?]]; by right | intros [?|?]; [done|by right]].
Qed.

(** X9: [all_checks] over a list of topics is true exactly when every
    topic of the list passes its three checks: it is alive-ignored or
    alive, the average-rate check does not apply to it or its [freq_ok]
    is true, and it is validity-ignored or valid. *)
Theorem all_checks_topic_by_topic self l :
  all_checks SERVICE_LIST self (Some l) = Ok true
  ↔ ∀ s, s ∈ l →
      (s ∈ ignore_alive self ∨ dict_get (alive self) s = Some true)
      ∧ (_check_avg_freq SERVICE_LIST self s = Ok false
         ∨ (_check_avg_freq SERVICE_LIST self s = Ok true
            ∧ dict_get (freq_ok self) s = Some true))
      ∧ (s ∈ ignore_valid self ∨ dict_get (valid self) s = Some true).
Proof.
  rewrite all_checks_split. unfold all_alive, all_freq_ok, all_valid.
  cbn [default from_option id]. rewrite !py_all_Ok_true. split.
  - intros (Ha & Hf & Hv) s Hs. split_and!.
    + by apply skip_or_true, Ha.
    + by apply Hf.
    + by apply skip_or_true, Hv.
  - intros H. split_and!; intros s Hs; destruct (H s Hs) as (Ha & Hf & Hv).
    + by apply skip_or_true.
    + done.
    + by apply skip_or_true.
Qed.

(** X10: checks that pass on a list of topics pass on any list drawn
    from it, and checks that pass on all topics (no list given) pass on
    any list of tracked topics. *)
Theorem all_checks_subset self l' :
  (∀ l, all_checks SERVICE_LIST self (Some l) = Ok true →
        (∀ s, s ∈ l' → s ∈ l) →
        all_checks SERVICE_LIST self (Some l') = Ok true)
  ∧ (all_checks SERVICE_LIST self None = Ok true →
     (∀ s, s ∈ l' → s ∈ dict_keys (alive self)) →
     all_checks SERVICE_LIST self (Some l') = Ok true).
Proof.
  assert (∀ l, all_checks SERVICE_LIST self (Some l) = Ok true →
               (∀ s, s ∈ l' → s ∈ l) →
               all_checks SERVICE_LIST self (Some l') = Ok true) as Hsub.
  { intros l H Hl. rewrite all_checks_split in H |- *.
    unfold all_alive, all_freq_ok, all_valid in *.
    cbn [default from_option id] in *. rewrite !py_all_Ok_true in H |- *.
    destruct H as (Ha & Hf & Hv).
    split_and!; intros s Hs; [apply Ha|apply Hf|apply Hv]; by apply Hl. }
  split; [done|]. intros H. by apply Hsub.
Qed.

(** X11: [all_alive] reads its list from the left: a topic that has no
    [alive] entry and is not alive-ignored raises [KeyError] when all
    the topics before it pass, and is never looked at when one of them
    fails. *)
Theorem all_alive_unknown_topic self s l :
  dict_get (alive self) s = None →
  s ∉ ignore_alive self →
  (all_alive self (Some l) = Ok true →
   all_alive self (Some (l ++ [s])) = Raise (KeyError s))
  ∧ (all_alive self (Some l) = Ok false →
     ∀ rest, all_alive self (Some (l ++ s :: rest)) = Ok false).
Proof.
  intros Hnone Hs. unfold all_alive. cbn [default from_option id]. split.
  - intros H. rewrite py_all_app, H. cbn [py_all]. unfold rbind, getitem.
    unfold py_in. rewrite bool_decide_eq_false_2 by done. cbn.
    by rewrite Hnone.
  - intros H rest. by rewrite py_all_app, H.
Qed.

(** X12: between construction and the first update, [all_freq_ok()] is
    true (the rate check applies to no topic yet) although every
    [freq_ok] flag is still false, and [all_valid()] is true; but every
    [alive] flag is false, so as soon as one topic is not alive-ignored
    [all_alive()] and [all_checks()] are false. *)
Theorem checks_before_first_update schema simulation monotonic services
    poll ia iaf iv self :
  __init__ schema simulation monotonic services poll ia iaf iv = Ok self →
  all_freq_ok SERVICE_LIST self None = Ok true
  ∧ all_valid self None = Ok true
  ∧ (∀ s, s ∈ services → dict_get (freq_ok self) s = Some false
                         ∧ dict_get (alive self) s = Some false)
  ∧ ((∃ s, s ∈ services ∧ s ∉ ignore_alive self) →
     all_alive self None = Ok false
     ∧ all_checks SERVICE_LIST self None = Ok false).
Proof.
  intros Hinit. apply init_initial in Hinit as Hini.
  pose proof (initial_tracks _ _ _ _ _ _ _ Hini) as Ht.
  destruct Hini as (_ & _ & _ & _ & Hinit0).
  assert (∀ s, s ∈ dict_keys (alive self) → s ∈ services) as Hkeys.
  { intros s. by apply tracks_alive_keys. }
  assert (all_alive self None = Ok false ∨ all_alive self None = Ok true)
    as Halive.
  { unfold all_alive. cbn [default from_option id].
    induction (dict_keys (alive self)) as [|x l IH]; [by right|].
    cbn [py_all]. unfold rbind, getitem.
    destruct (negb _).
    - pose proof (Hinit0 x) as Hx.
      rewrite bool_decide_eq_true_2 in Hx by (apply Hkeys; by left).
      destruct Hx as (_ & _ & _ & -> & _). by left.
    - apply IH. intros s Hs. apply Hkeys. by right. }
  split_and!.
  - unfold all_freq_ok. cbn [default from_option id]. apply py_all_true. intros s Hs. left.
    specialize (Hinit0 s).
    rewrite bool_decide_eq_true_2 in Hinit0 by (by apply Hkeys).
    destruct Hinit0 as (_ & Hrt & _).
    unfold _check_avg_freq, rbind, getitem. by rewrite Hrt.
  - unfold all_valid. cbn [default from_option id]. apply py_all_true. intros s Hs.
    specialize (Hinit0 s).
    rewrite bool_decide_eq_true_2 in Hinit0 by (by apply Hkeys).
    destruct Hinit0 as (_ & _ & _ & _ & _ & _ & _ & Hv & _).
    destruct (negb _); [by right|by left].
  - intros s Hs. specialize (Hinit0 s).
    rewrite bool_decide_eq_true_2 in Hinit0 by done.
    by destruct Hinit0 as (_ & _ & _ & ? & ? & _).
  - intros (s & Hs & Hign).
    assert (all_alive self None = Ok false) as Hfalse.
    { destruct Halive as [?|Htrue]; [done|]. exfalso.
      unfold all_alive in Htrue. cbn [default] in Htrue.
      rewrite py_all_Ok_true in Htrue.
      destruct (Htrue s) as [Hk|[_ Ha]].
      - by apply (tracks_alive_keys services).
      - unfold py_in in Hk. by rewrite bool_decide_eq_false_2 in Hk.
      - specialize (Hinit0 s).
        rewrite bool_decide_eq_true_2 in Hinit0 by done.
        destruct Hinit0 as (_ & _ & _ & Ha' & _). congruence. }
    split; [done|]. unfold all_checks, rbind. by rewrite Hfalse.
Qed.
End AggregateFacts.

(** ** PubMaster: declared topics and short waits *)

Section PubMasterFacts.
Context {World : Type}
        (sock_send : string → bytes → World → World)
        (all_readers_updated_ : string → World → bool)
        (sleep : float → M World unit)
        (to_bytes : Event.t → bytes).

Lemma pub_sock_declared services s :
  dict_get (PubMaster.sock (PubMaster.__init__ services)) s
  = if bool_decide (s ∈ services) then Some s else None.
Proof.
  unfold PubMaster.__init__. cbn [PubMaster.sock].
  by rewrite (dict_get_comp_fold (fun s => s)).
Qed.

(** X13: a publisher serves exactly the topics it was constructed with:
    on one of them [send] hands the bytes to that topic's socket (a
    builder is serialised first, so it sends what sending its bytes
    sends) and [all_readers_updated] asks that socket; on any other
    topic both raise [KeyError] and nothing is sent. *)
Theorem publisher_declared_topics services s dat w :
  let self := PubMaster.__init__ services in
  if bool_decide (s ∈ services) then
    PubMasterSend.send sock_send to_bytes self s (inl dat) w
    = (Ok tt, sock_send s dat w)
    ∧ (∀ msg, to_bytes msg = dat →
         PubMasterSend.send sock_send to_bytes self s (inr msg) w
         = (Ok tt, sock_send s dat w))
    ∧ PubMasterSend.all_readers_updated all_readers_updated_ self s w
      = (Ok (all_readers_updated_ s w), w)
  else
    PubMasterSend.send sock_send to_bytes self s (inl dat) w
    = (Raise (KeyError s), w)
    ∧ (∀ msg,
         PubMasterSend.send sock_send to_bytes self s (inr msg) w
         = (Raise (KeyError s), w))
    ∧ PubMasterSend.all_readers_updated all_readers_updated_ self s w
      = (Raise (KeyError s), w).
Proof.
  intros self. pose proof (pub_sock_declared services s) as Hsock.
  unfold PubMasterSend.send, PubMasterSend.all_readers_updated,
    bind, lift, modify, reads, getitem.
  subst self. rewrite Hsock.
  destruct (bool_decide (s ∈ services)); cbn.
  - split; [done|]. split; [|done]. by intros msg ->.
  - done.
Qed.

(** X14: when [int(timeout * (1. / dt))] is zero or negative (a zero
    timeout, or a timeout shorter than one poll interval),
    [wait_for_readers_to_update] returns false at once: it never polls,
    whatever the readers have done, and never sleeps; it does not even
    look the topic up. *)
Theorem wait_for_readers_short_timeout self s timeout dt inv n w :
  py_div 1 dt = Ok inv →
  py_int (float_of_Z timeout * inv)%float = Ok n →
  n ≤ 0 →
  PubMaster.wait_for_readers_to_update all_readers_updated_ sleep
    self s timeout dt w
  = (Ok false, w).
Proof.
  intros Hinv Hn Hle.
  unfold PubMaster.wait_for_readers_to_update, bind, lift.
  rewrite Hinv, Hn. by rewrite Z2Nat.nonpos.
Qed.

(** X15: how [wait_for_readers_to_update] fails.  A zero poll interval
    raises [ZeroDivisionError] before anything is polled; and with at
    least one poll to make, a topic the publisher was not constructed
    with raises [KeyError] at the first poll, without sleeping. *)
Theorem wait_for_readers_raises self s timeout dt w :
  ((dt =? 0)%float = true →
   PubMaster.wait_for_readers_to_update all_readers_updated_ sleep
     self s timeout dt w
   = (Raise ZeroDivisionError, w))
  ∧ (∀ inv n,
       py_div 1 dt = Ok inv →
       py_int (float_of_Z timeout * inv)%float = Ok n →
       0 < n →
       dict_get (PubMaster.sock self) s = None →
       PubMaster.wait_for_readers_to_update all_readers_updated_ sleep
         self s timeout dt w
       = (Raise (KeyError s), w)).
Proof.
  unfold PubMaster.wait_for_readers_to_update, bind, lift. split.
  - intros Hz. unfold py_div. by rewrite Hz.
  - intros inv n Hinv Hn Hpos Hnone. rewrite Hinv, Hn.
    destruct (Z.to_nat n) as [|k] eqn:Hk; [lia|].
    cbn [PubMaster.wait_loop]. unfold bind, lift, getitem.
    by rewrite Hnone.
Qed.
End PubMasterFacts.

(** ** Single receives *)

Section SingleReceiveFacts.
Context {SubSocket : Type}
        (receive : bool → SubSocket → option bytes * SubSocket)
        (log_from_bytes : bytes → result Event.t).

(** X16: [recv_one_retry] is [recv_one] repeated until it does not
    return the absent value: it returns the first message [recv_one]
    returns, and raises what [recv_one] raises on a message that does
    not decode. *)
Theorem recv_one_retry_repeats_recv_one fuel sock :
  recv_one_retry receive log_from_bytes (S fuel) sock
  = match recv_one receive log_from_bytes sock with
    | (Ok None, sock') => recv_one_retry receive log_from_bytes fuel sock'
    | (Ok (Some msg), sock') => Some (Ok msg, sock')
    | (Raise e, sock') => Some (Raise e, sock')
    end.
Proof.
  cbn [recv_one_retry]. unfold recv_one, decode_if_any.
  destruct (receive false sock) as [[dat|] sock']; [|done].
  by destruct (log_from_bytes dat).
Qed.

(** X17: on a socket with at most one message queued, [recv_sock]
    without [wait] returns what [recv_one_or_none] returns; it makes
    one more receive when there was a message. *)
Theorem recv_sock_one_queued fuel sock :
  (∀ sock',
     receive true sock = (None, sock') →
     recv_sock receive log_from_bytes (S fuel) sock false
     = Some (recv_one_or_none receive log_from_bytes sock))
  ∧ (∀ d sock1 sock',
       receive true sock = (Some d, sock1) →
       receive true sock1 = (None, sock') →
       recv_sock receive log_from_bytes (S (S fuel)) sock false
       = Some ((recv_one_or_none receive log_from_bytes sock).1, sock')).
Proof.
  unfold recv_sock, recv_one_or_none. split.
  - intros sock' Hr. cbn [recv_sock_loop andb]. by rewrite Hr.
  - intros d sock1 sock' Hr Hr1. cbn [recv_sock_loop andb].
    by rewrite Hr, Hr1.
Qed.
End SingleReceiveFacts.

(** ** Concrete runs *)

Section FurtherExamples.
Local Open Scope float_scope.

Ltac member :=
  vm_compute; repeat first [apply list_elem_of_here | apply list_elem_of_further].

Ltac tracked :=
  let m := fresh "m" in
  let Hm := fresh "Hm" in
  intros m Hm; simpl in Hm;
  repeat (apply elem_of_cons in Hm as [Hm|Hm];
          [first [discriminate | injection Hm as ->; member]|]);
  by apply elem_of_nil in Hm.

(** X1 on a queue of two messages: the second is the one returned. *)
Lemma recv_sock_is_last_drained_witness :
  recv_sock queue_receive example_from_bytes 3 [[Byte.x6d]; [Byte.x63]] false
  = Some (Ok (Some clocks_msg), []).
Proof.
  apply (recv_sock_is_last_drained queue_receive example_from_bytes
           3 [[Byte.x6d]; [Byte.x63]] false [[Byte.x6d]; [Byte.x63]] []).
  reflexivity.
Defined.

(** X2 on a queue of two messages. *)
Lemma drain_sock_decodes_drained_witness :
  drain_sock queue_receive example_from_bytes 3 [[Byte.x6d]; [Byte.x63]] false
  = Some (Ok [model_msg; clocks_msg], []).
Proof.
  apply (drain_sock_decodes_drained queue_receive example_from_bytes
           3 [[Byte.x6d]; [Byte.x63]] false [[Byte.x6d]; [Byte.x63]] []).
  reflexivity.
Defined.

(** X3 on a queue of two and of three messages. *)
Lemma drain_sock_raw_in_order_witness :
  drain_sock_raw queue_receive 3 [[Byte.x6d]; [Byte.x63]] false
  = Some ([[Byte.x6d]; [Byte.x63]], [])
  ∧ drain_sock_raw queue_receive 4 [[]; [Byte.x6d]; [Byte.x63]] true
    = Some ([[]; [Byte.x6d]; [Byte.x63]], []).
Proof.
  split.
  - apply (proj1 (drain_sock_raw_in_order queue_receive
                    3 [[Byte.x6d]; [Byte.x63]] [[Byte.x6d]; [Byte.x63]] [])).
    + simpl. eexists. split; [reflexivity|]. eexists. by split.
    + simpl. lia.
  - apply (proj2 (drain_sock_raw_in_order queue_receive
                    4 [[]; [Byte.x6d]; [Byte.x63]]
                    [[Byte.x6d]; [Byte.x63]] [])
             [] [[Byte.x6d]; [Byte.x63]]).
    + reflexivity.
    + simpl. eexists. split; [reflexivity|]. eexists. by split.
    + simpl. lia.
Defined.

(** X4 on a socket that times out twice before a message arrives. *)
Lemma recv_one_retry_first_message_witness :
  recv_one_retry script_receive example_from_bytes 3
    [None; None; Some [Byte.x6d]]
  = Some (Ok model_msg, []).
Proof.
  apply (recv_one_retry_first_message script_receive example_from_bytes
           2 [Byte.x6d] [None; None; Some [Byte.x6d]] [] 3).
  - simpl. eexists. split; [reflexivity|]. eexists. by split.
  - lia.
Defined.

(** X5 on a tick with two messages for one topic. *)
Lemma update_msgs_latest_witness :
  ∃ self',
    update_msgs example_services 0.1
      [Some model_msg; None; Some (Event.mk false 7 "modelV2" (PStruct "modelV2"))]
      plain_start
    = (Ok tt, self')
    ∧ dict_get (valid self') "modelV2" = Some false
    ∧ dict_get (logMonoTime self') "modelV2" = Some 7%Z
    ∧ dict_get (recv_frame self') "modelV2" = Some 0%Z
    ∧ received "can" self' = received "can" plain_start.
Proof.
  destruct (update_msgs_latest example_services 0.1
              [Some model_msg; None;
               Some (Event.mk false 7 "modelV2" (PStruct "modelV2"))]
              plain_start plain_start_well_formed ltac:(tracked))
    as (self' & Hrun & Hall).
  exists self'. split; [exact Hrun|].
  pose proof (Hall "modelV2") as (_ & _ & Hf & _ & Hv & Hl).
  pose proof (Hall "can") as (_ & Hr).
  by split_and!.
Defined.

(** X6 on a tick with two messages for one topic. *)
Lemma update_msgs_history_length_witness :
  ∃ self' dts',
    update_msgs example_services 0.1 [Some model_msg; Some model_msg]
      plain_start
    = (Ok tt, self')
    ∧ dict_get (recv_dts self') "modelV2" = Some dts'
    ∧ length dts' = 2%nat.
Proof.
  destruct (update_msgs_history_length example_services 0.1
              [Some model_msg; Some model_msg]
              plain_start plain_start_well_formed ltac:(tracked))
    as (self' & Hrun & Hall).
  destruct (Hall "modelV2" [] eq_refl) as (dts' & Hd & Hlen).
  by exists self', dts'.
Defined.

(** X7 on a tick whose second message is for a topic that is not
    tracked. *)
Lemma update_msgs_untracked_witness :
  let r := update_msgs example_services 0.1
             ([Some model_msg] ++ Some clocks_msg :: [Some model_msg])
             plain_start in
  r.1 = Raise (KeyError (Event.which clocks_msg))
  ∧ frame r.2 = (frame plain_start + 1)%Z
  ∧ alive r.2 = alive plain_start
  ∧ freq_ok r.2 = freq_ok plain_start.
Proof.
  intros r.
  destruct (update_msgs_untracked example_services 0.1
              [Some model_msg] clocks_msg [Some model_msg] plain_start
              plain_start_well_formed ltac:(tracked) eq_refl)
    as (H1 & H2 & H3 & H4 & _).
  by split_and!.
Defined.

(** X8 on three topics, after a tick that raised. *)
Lemma getitem_tracked_witness :
  (∃ p, SubMasterAccess.__getitem__
          (run_updates example_services [(0.1, [Some clocks_msg])] plain_start)
          "can" = Ok p)
  ∧ SubMasterAccess.__getitem__
      (run_updates example_services [(0.1, [Some clocks_msg])] plain_start)
      "clocks" = Raise (KeyError "clocks").
Proof.
  split.
  - exact (getitem_tracked example_services example_schema false 0
             three_topics None None None None plain_start eq_refl
             [(0.1, [Some clocks_msg])] "can").
  - exact (getitem_tracked example_services example_schema false 0
             three_topics None None None None plain_start eq_refl
             [(0.1, [Some clocks_msg])] "clocks").
Defined.

(** X9 on the three topics under the simulation override, before the
    first update. *)
Lemma all_checks_topic_by_topic_witness :
  all_checks example_services sim_start (Some three_topics) = Ok true.
Proof.
  apply (proj2 (all_checks_topic_by_topic example_services sim_start
                  three_topics)).
  intros s. unfold three_topics. rewrite !elem_of_cons.
  intros [->|[->|[->|[]%elem_of_nil]]].
  - split_and!; [left; member|by left|by right].
  - split_and!; [left; member|by left|by right].
  - split_and!; [left; member|by left|by right].
Defined.

(** X10 on the three topics under the simulation override. *)
Lemma all_checks_subset_witness :
  all_checks example_services sim_start (Some ["can"]) = Ok true
  ∧ all_checks example_services sim_start (Some ["userFlag"; "can"])
    = Ok true.
Proof.
  split.
  - apply (proj1 (all_checks_subset example_services sim_start ["can"])
             three_topics); [reflexivity|].
    intros s ->%list_elem_of_singleton. member.
  - apply (proj2 (all_checks_subset example_services sim_start
                    ["userFlag"; "can"])); [reflexivity|].
    intros s. rewrite !elem_of_cons.
    intros [->|[->|[]%elem_of_nil]]; member.
Defined.

(** X11 on three tracked topics and one that is not. *)
Lemma all_alive_unknown_topic_witness :
  all_alive plain_start (Some ([] ++ ["clocks"])) = Raise (KeyError "clocks")
  ∧ all_alive plain_start (Some (["modelV2"] ++ "clocks" :: ["can"]))
    = Ok false.
Proof.
  split.
  - apply (proj1 (all_alive_unknown_topic plain_start "clocks" []
                    eq_refl ltac:(apply not_elem_of_nil))).
    reflexivity.
  - apply (proj2 (all_alive_unknown_topic plain_start "clocks" ["modelV2"]
                    eq_refl ltac:(apply not_elem_of_nil))).
    reflexivity.
Defined.

(** X12 on three topics. *)
Lemma checks_before_first_update_witness :
  all_freq_ok example_services plain_start None = Ok true
  ∧ all_valid plain_start None = Ok true
  ∧ all_alive plain_start None = Ok false
  ∧ all_checks example_services plain_start None = Ok false.
Proof.
  destruct (checks_before_first_update example_services example_schema
              false 0 three_topics None None None None plain_start eq_refl)
    as (Hf & Hv & _ & Ha).
  destruct Ha as [Ha Hc].
  { exists "can". split; [member|apply not_elem_of_nil]. }
  by split_and!.
Defined.

(** X13 on a publisher of one topic. *)
Lemma publisher_declared_topics_witness :
  PubMasterSend.send wire_send example_to_bytes
    (PubMaster.__init__ ["modelV2"]) "modelV2" (inr model_msg) []
  = (Ok tt, [("modelV2", [Byte.x6d])])
  ∧ PubMasterSend.send wire_send example_to_bytes
      (PubMaster.__init__ ["modelV2"]) "clocks" (inr clocks_msg) []
    = (Raise (KeyError "clocks"), []).
Proof.
  split.
  - apply (proj1 (proj2 (publisher_declared_topics wire_send
                           wire_all_readers_updated example_to_bytes
                           ["modelV2"] "modelV2" [Byte.x6d] []))).
    reflexivity.
  - apply (proj1 (proj2 (publisher_declared_topics wire_send
                           wire_all_readers_updated example_to_bytes
                           ["modelV2"] "clocks" [] []))).
Defined.

(** X14 with a timeout of 1 s and a poll interval of 2 s, on a topic
    the publisher does not have and readers that have caught up. *)
Lemma wait_for_readers_short_timeout_witness :
  PubMaster.wait_for_readers_to_update clock_all_readers_updated clock_sleep
    (PubMaster.__init__ ["modelV2"]) "clocks" 1 2.0
    {| clock := 0; ready_at := 0 |}
  = (Ok false, {| clock := 0; ready_at := 0 |}).
Proof.
  apply (wait_for_readers_short_timeout clock_all_readers_updated clock_sleep
           (PubMaster.__init__ ["modelV2"]) "clocks" 1 2.0 0.5 0%Z
           {| clock := 0; ready_at := 0 |} eq_refl eq_refl).
  lia.
Defined.

(** X15 with a zero poll interval, and on a topic the publisher does not
    have. *)
Lemma wait_for_readers_raises_witness :
  PubMaster.wait_for_readers_to_update clock_all_readers_updated clock_sleep
    (PubMaster.__init__ ["modelV2"]) "modelV2" 1 0
    {| clock := 0; ready_at := 0 |}
  = (Raise ZeroDivisionError, {| clock := 0; ready_at := 0 |})
  ∧ PubMaster.wait_for_readers_to_update clock_all_readers_updated clock_sleep
      (PubMaster.__init__ ["modelV2"]) "clocks" 1 0.05
      {| clock := 0; ready_at := 0 |}
    = (Raise (KeyError "clocks"), {| clock := 0; ready_at := 0 |}).
Proof.
  split.
  - apply (proj1 (wait_for_readers_raises clock_all_readers_updated
                    clock_sleep (PubMaster.__init__ ["modelV2"]) "modelV2"
                    1 0 {| clock := 0; ready_at := 0 |})).
    reflexivity.
  - apply (proj2 (wait_for_readers_raises clock_all_readers_updated
                    clock_sleep (PubMaster.__init__ ["modelV2"]) "clocks"
                    1 0.05 {| clock := 0; ready_at := 0 |})
             20 20%Z eq_refl eq_refl ltac:(lia) eq_refl).
Defined.

(** X16 on a socket that times out once before a message arrives. *)
Lemma recv_one_retry_repeats_recv_one_witness :
  recv_one_retry script_receive example_from_bytes 2 [None; Some [Byte.x63]]
  = recv_one_retry script_receive example_from_bytes 1 [Some [Byte.x63]].
Proof.
  exact (recv_one_retry_repeats_recv_one script_receive example_from_bytes
           1 [None; Some [Byte.x63]]).
Defined.

(** X17 on an empty queue and on a queue of one message. *)
Lemma recv_sock_one_queued_witness :
  recv_sock queue_receive example_from_bytes 1 [] false = Some (Ok None, [])
  ∧ recv_sock queue_receive example_from_bytes 2 [[Byte.x6d]] false
    = Some (Ok (Some model_msg), []).
Proof.
  split.
  - apply (proj1 (recv_sock_one_queued queue_receive example_from_bytes
                    0 []) []).
    reflexivity.
  - apply (proj2 (recv_sock_one_queued queue_receive example_from_bytes
                    0 [[Byte.x6d]]) [Byte.x6d] [] []); reflexivity.
Defined.
End FurtherExamples.
